(** * Forecast.js: the sales-forecast workflow, embedded and verified

    The component under study ([src/Forecast.js]) reads rows of a CSV
    file, normalises them into sales points, fits one small regressor
    per product and merges actual and predicted values into a chart
    series.  This file embeds the functions that carry that logic
    ([preprocessData], [prepareData], [predictSalesForProduct],
    [predictSales], [renderChartData]) together with the JavaScript
    primitives they call, and proves the properties of the specification
    against them.

    Conventions of the embedding.
    - A JavaScript string is a [string] whose characters stand for code
      units below 256; strings with larger code units are outside the
      model (they only matter for the Unicode white space that
      [parseInt], [parseFloat] and [Number] skip).
    - The month of a sales point is always the result of
      [parseInt(_, 10)], possibly increased by a loop counter: an
      integer-valued double, an infinity or NaN.  Type [num] holds
      exactly these, with the rounding of large integers to 53 bits
      written out.  The two zeros of IEEE arithmetic are identified
      (they are [===] and add alike).
    - The quantity of a sales point is always the result of
      [parseFloat]: an IEEE binary64 value ([spec_float] of the
      Standard Library), the double nearest to the decimal numeral
      that was read, an infinity or NaN.
    - The object used as the prediction table is a plain object: the
      finite map of its own properties together with its prototype,
      which is [Object.prototype] unless an assignment to [__proto__]
      has replaced it by an array.  Reading a name goes through the
      prototype chain, so names such as [constructor] are found even
      when the table has no entry for them.
    - The horizon [months] is an integer; the component starts it at 6
      and its only setter sits in a disabled control.  The counter of
      the prediction loop is exact for horizons below [2^53].
    - The regression library is a parameter: a type of fitted models,
      [fit] (one run of training, initial weights included) and
      [predict]. *)

From Stdlib Require Import ZArith NArith List Ascii String Bool Sorted Lia.
From Stdlib Require Import Floats.SpecFloat.
From stdpp Require Import base option list gmap strings.

Local Open Scope Z_scope.

(** ** JavaScript numbers *)

Module JS.

(** Integer-valued doubles, as [parseInt] produces them. *)
Inductive num : Type :=
| NaN
| Inf (neg : bool)
| Fin (z : Z).

(** Doubles in general, as [parseFloat] produces them: the binary64
    values of the Standard Library's specification of IEEE 754. *)
Definition double : Type := spec_float.

#[global] Instance num_eq_dec : EqDecision num.
Proof. solve_decision. Defined.

#[global] Instance double_eq_dec : EqDecision double.
Proof. unfold double. solve_decision. Defined.

(** The double nearest to [(-1)^neg * m * 10^e], ties to even: the
    quotient of [m * 10^e] (or of [m] by [10^-e]) is taken with its
    position between two doubles and rounded once; values too large
    become an infinity, values too small a zero. *)
Definition decimal_to_double (neg : bool) (m : N) (e : Z) : double :=
  match m with
  | N0 => S754_zero neg
  | Npos p =>
      let num := Zpos p * 10 ^ Z.max e 0 in
      let den := 10 ^ Z.max (- e) 0 in
      let '(q, e', loc) := SFdiv_core_binary 53 1024 num 0 den 0 in
      binary_round_aux 53 1024 neg q e' loc
  end.

(** The double of an integer. *)
Definition number (z : Z) : double :=
  decimal_to_double (z <? 0) (Z.to_N (Z.abs z)) 0.

(** The double nearest to an integer (ties to even); integers below
    [2^53] in magnitude are doubles already. *)
Definition round_to_double (z : Z) : num :=
  let a := Z.abs z in
  if a <? 2 ^ 53 then Fin z
  else
    let e := Z.log2 a - 52 in
    let q := a / 2 ^ e in
    let r := a mod 2 ^ e in
    let half := 2 ^ (e - 1) in
    let q' := if (half <? r) || ((r =? half) && Z.odd q) then q + 1 else q in
    let v := q' * 2 ^ e in
    if 2 ^ 1024 <=? v then Inf (z <? 0) else Fin (Z.sgn z * v).

(** [x + y] on numbers. *)
Definition add (x y : num) : num :=
  match x, y with
  | NaN, _ | _, NaN => NaN
  | Inf a, Inf b => if Bool.eqb a b then Inf a else NaN
  | Inf a, Fin _ | Fin _, Inf a => Inf a
  | Fin a, Fin b => round_to_double (a + b)
  end.

(** [x === y] on numbers: NaN is equal to nothing, itself included. *)
Definition strict_eq (x y : num) : bool :=
  match x, y with
  | Fin a, Fin b => a =? b
  | Inf a, Inf b => Bool.eqb a b
  | _, _ => false
  end.

(** [x < y] on numbers. *)
Definition lt (x y : num) : bool :=
  match x, y with
  | NaN, _ | _, NaN => false
  | Fin a, Fin b => a <? b
  | Inf a, Inf b => a && negb b
  | Inf a, Fin _ => a
  | Fin _, Inf b => negb b
  end.

(** [q > 0] for a double. *)
Definition positive (q : double) : bool :=
  match q with
  | S754_infinity false | S754_finite false _ _ => true
  | _ => false
  end.

(** ** Characters and strings *)

Definition code (c : ascii) : N := N_of_ascii c.

(** White space and line terminators with a code unit below 256:
    TAB, LF, VT, FF, CR, SP and NBSP. *)
Definition is_ws (c : ascii) : bool :=
  let n := code c in
  ((9 <=? n) && (n <=? 13) || (n =? 32) || (n =? 160))%N.

Definition is_digit (c : ascii) : bool :=
  let n := code c in ((48 <=? n) && (n <=? 57))%N.

Definition digit_val (c : ascii) : Z := Z.of_N (code c) - 48.

Definition is_hex_digit (c : ascii) : bool :=
  let n := code c in
  (is_digit c || (65 <=? n) && (n <=? 70) || (97 <=? n) && (n <=? 102))%N.

Definition is_oct_digit (c : ascii) : bool :=
  let n := code c in ((48 <=? n) && (n <=? 55))%N.

Definition is_bin_digit (c : ascii) : bool :=
  let n := code c in ((n =? 48) || (n =? 49))%N.

Fixpoint trim_start (cs : list ascii) : list ascii :=
  match cs with
  | c :: r => if is_ws c then trim_start r else cs
  | [] => []
  end.

Definition trim (cs : list ascii) : list ascii :=
  rev (trim_start (rev (trim_start cs))).

(** The longest prefix of digits, and what follows it. *)
Fixpoint span_digits (cs : list ascii) : list ascii * list ascii :=
  match cs with
  | c :: r =>
      if is_digit c then let '(ds, rest) := span_digits r in (c :: ds, rest)
      else ([], cs)
  | [] => ([], [])
  end.

(** The value of a digit string, most significant digit first. *)
Definition digits_value (ds : list ascii) : Z :=
  fold_left (fun acc c => 10 * acc + digit_val c) ds 0.

(** An optional sign. *)
Definition scan_sign (cs : list ascii) : bool * list ascii :=
  match cs with
  | c :: r =>
      if Ascii.eqb c "-" then (true, r)
      else if Ascii.eqb c "+" then (false, r)
      else (false, cs)
  | [] => (false, [])
  end.

(** [parseInt(s, 10)]: leading white space, an optional sign, then the
    longest run of decimal digits; NaN when that run is empty.  (With
    an explicit radix of 10 no [0x] prefix is recognised.) *)
Definition parseInt (s : string) : num :=
  let '(neg, r) := scan_sign (trim_start (list_ascii_of_string s)) in
  match fst (span_digits r) with
  | [] => NaN
  | ds => let v := digits_value ds in round_to_double (if neg then - v else v)
  end.

(** [s.split(sep)] for a one-character separator. *)
Fixpoint split_chars (sep : ascii) (cs : list ascii) : list (list ascii) :=
  match cs with
  | [] => [[]]
  | c :: r =>
      if Ascii.eqb c sep then [] :: split_chars sep r
      else match split_chars sep r with
           | p :: ps => (c :: p) :: ps
           | [] => [[c]]
           end
  end.

Definition split (sep : ascii) (s : string) : list string :=
  map string_of_list_ascii (split_chars sep (list_ascii_of_string s)).

(** *** Decimal literals ([StrDecimalLiteral]) *)

Definition is_exp_char (c : ascii) : bool :=
  Ascii.eqb c "e" || Ascii.eqb c "E".

(** An exponent part: [e] or [E], an optional sign, at least one digit. *)
Definition scan_exponent (cs : list ascii) : option (Z * list ascii) :=
  match cs with
  | c :: r =>
      if is_exp_char c then
        let '(neg, r1) := scan_sign r in
        let '(ds, r2) := span_digits r1 in
        match ds with
        | [] => None
        | _ => let v := digits_value ds in Some (if neg then - v else v, r2)
        end
      else None
  | [] => None
  end.

(** Digits with an optional fraction: [ddd], [ddd.], [ddd.ddd], [.ddd].
    Returns the digits before and after the point and the rest. *)
Definition scan_mantissa (cs : list ascii)
  : option (list ascii * list ascii * list ascii) :=
  let '(ip, r1) := span_digits cs in
  match r1 with
  | c :: r =>
      if Ascii.eqb c "." then
        let '(fp, r2) := span_digits r in
        match ip, fp with
        | [], [] => None
        | _, _ => Some (ip, fp, r2)
        end
      else match ip with [] => None | _ => Some (ip, [], r1) end
  | [] => match ip with [] => None | _ => Some (ip, [], r1) end
  end.

Definition infinity_chars : list ascii := list_ascii_of_string "Infinity".

Fixpoint strip_prefix (p cs : list ascii) : option (list ascii) :=
  match p, cs with
  | [], _ => Some cs
  | a :: p', c :: r => if Ascii.eqb a c then strip_prefix p' r else None
  | _ :: _, [] => None
  end.

(** The longest prefix that is a decimal literal: its value and the
    characters left over. *)
Definition scan_decimal (cs : list ascii) : option (double * list ascii) :=
  let '(neg, r) := scan_sign cs in
  match strip_prefix infinity_chars r with
  | Some rest => Some (S754_infinity neg, rest)
  | None =>
      match scan_mantissa r with
      | None => None
      | Some (ip, fp, r1) =>
          let m := Z.to_N (digits_value (ip ++ fp)) in
          let shift := Z.of_nat (length fp) in
          match scan_exponent r1 with
          | Some (e, r2) => Some (decimal_to_double neg m (e - shift), r2)
          | None => Some (decimal_to_double neg m (- shift), r1)
          end
      end
  end.

(** [parseFloat(s)]: leading white space, then the longest prefix that
    is a decimal literal; NaN when there is none. *)
Definition parseFloat (s : string) : double :=
  match scan_decimal (trim_start (list_ascii_of_string s)) with
  | Some (v, _) => v
  | None => S754_nan
  end.

(** *** [Number(s)] and [isNaN(s)] on a string *)

(** [0x], [0o] and [0b] integer literals (no sign allowed). *)
Definition is_nondecimal_literal (cs : list ascii) : bool :=
  match cs with
  | z :: k :: d :: ds =>
      Ascii.eqb z "0" &&
      ((Ascii.eqb k "x" || Ascii.eqb k "X") && forallb is_hex_digit (d :: ds)
       || (Ascii.eqb k "o" || Ascii.eqb k "O") && forallb is_oct_digit (d :: ds)
       || (Ascii.eqb k "b" || Ascii.eqb k "B") && forallb is_bin_digit (d :: ds))
  | _ => false
  end.

(** A string converts to a number other than NaN when, once trimmed,
    it is empty, a decimal literal or a non-decimal integer literal. *)
Definition is_numeric_string (s : string) : bool :=
  let cs := trim (list_ascii_of_string s) in
  match cs with
  | [] => true
  | _ =>
      match scan_decimal cs with
      | Some (_, []) => true
      | _ => is_nondecimal_literal cs
      end
  end.

(** [isNaN(s)] for a string [s]. *)
Definition isNaN (s : string) : bool := negb (is_numeric_string s).

(** Truthiness of a property that holds a string or is absent. *)
Definition truthy (f : option string) : bool :=
  match f with
  | Some s => negb (String.eqb s "")
  | None => false
  end.

End JS.

(** ** Plain objects used as tables *)

Module Obj.

(** The names of the properties of [Object.prototype] (ECMAScript,
    with the legacy accessors that browsers define).  [__proto__] is
    an accessor; the others hold functions. *)
Definition object_prototype_names : list string :=
  [ "constructor"; "hasOwnProperty"; "isPrototypeOf"; "propertyIsEnumerable";
    "toLocaleString"; "toString"; "valueOf";
    "__defineGetter__"; "__defineSetter__"; "__lookupGetter__";
    "__lookupSetter__"; "__proto__" ]%string.

(** The names of the properties of [Array.prototype] (ECMAScript
    2023); all of them hold functions. *)
Definition array_prototype_names : list string :=
  [ "at"; "concat"; "constructor"; "copyWithin"; "entries"; "every"; "fill";
    "filter"; "find"; "findIndex"; "findLast"; "findLastIndex"; "flat";
    "flatMap"; "forEach"; "includes"; "indexOf"; "join"; "keys";
    "lastIndexOf"; "map"; "pop"; "push"; "reduce"; "reduceRight"; "reverse";
    "shift"; "slice"; "some"; "sort"; "splice"; "toLocaleString";
    "toReversed"; "toSorted"; "toSpliced"; "toString"; "unshift"; "values";
    "with" ]%string.

Definition mem_name (k : string) (names : list string) : bool :=
  existsb (String.eqb k) names.

(** The index that a property name denotes, when it is the canonical
    decimal writing of a natural number ([0], [1], ..., no leading
    zero). *)
Definition index_of_key (k : string) : option nat :=
  match list_ascii_of_string k with
  | [] => None
  | c :: r =>
      if forallb JS.is_digit (c :: r)
         && (negb (Ascii.eqb c "0") || (length r =? 0)%nat)
      then Some (Z.to_nat (JS.digits_value (c :: r)))
      else None
  end.

Section Table.

Context {A : Type}.

(** What reading a property of a table gives: nothing, an array, or
    some other value found on the prototype chain (a function, a
    number, an object that is no array), of which only the truthiness
    matters. *)
Inductive value : Type :=
| Undefined
| Array (a : list A)
| Other (truthy : bool).

(** A table: its own properties (all of them arrays) and, when an
    assignment to [__proto__] has replaced the prototype, the array
    that is the prototype now. *)
Record t : Type := {
  own : gmap string (list A);
  proto : option (list A)
}.

(** [{}] *)
Definition empty : t := {| own := ∅; proto := None |}.

(** What the prototype chain gives for a name that is no own
    property and is not [__proto__]. *)
Definition inherited (o : t) (k : string) : value :=
  match proto o with
  | Some a =>
      if String.eqb k "length" then Other (0 <? length a)%nat
      else
        match index_of_key k with
        | Some i =>
            if (i <? length a)%nat then Other true
            else if mem_name k array_prototype_names
                    || mem_name k object_prototype_names
                 then Other true else Undefined
        | None =>
            if mem_name k array_prototype_names
               || mem_name k object_prototype_names
            then Other true else Undefined
        end
  | None =>
      if mem_name k object_prototype_names then Other true else Undefined
  end.

(** [o[k]] *)
Definition get (o : t) (k : string) : value :=
  match own o !! k with
  | Some a => Array a
  | None =>
      if String.eqb k "__proto__" then
        match proto o with
        | Some a => Array a
        | None => Other true
        end
      else inherited o k
  end.

(** [o[k] = a] for an array [a]: the setter of [__proto__] replaces
    the prototype (unless the table has an own property of that name);
    any other name becomes or stays an own property. *)
Definition set (k : string) (a : list A) (o : t) : t :=
  if String.eqb k "__proto__" then
    match own o !! k with
    | Some _ => {| own := <[k := a]> (own o); proto := proto o |}
    | None => {| own := own o; proto := Some a |}
    end
  else {| own := <[k := a]> (own o); proto := proto o |}.

(** [Object.keys(o)], as a set. *)
Definition keys (o : t) : gset string := dom (own o).

(** Truthiness of a value read from a table. *)
Definition truthy (v : value) : bool :=
  match v with
  | Undefined => false
  | Array _ => true
  | Other b => b
  end.

(** [v?.method(...)] for an array method: [undefined] when [v] is
    undefined, the result of the method when [v] is an array, and a
    TypeError (the outer [None]) otherwise, since no other value read
    from a table has such a method. *)
Definition optional_call {B : Type} (v : value) (method : list A -> B)
  : option (option B) :=
  match v with
  | Undefined => Some None
  | Array a => Some (Some (method a))
  | Other _ => None
  end.

(** The array found under a name, if any. *)
Definition array_of (v : value) : list A :=
  match v with
  | Array a => a
  | _ => []
  end.

End Table.

Arguments value A : clear implicits.
Arguments t A : clear implicits.

End Obj.

(** ** Data model *)

(** One parsed CSV row: the three columns the component reads.  A
    column is [None] when the row has no such property. *)
Record RawRecord : Type := {
  created : option string;
  short_desc : option string;
  total_sold : option string
}.

Record SalesPoint : Type := {
  month : JS.num;
  product : string;
  quantity : JS.double
}.

(** ** Normalization *)

(** The predicate of the first [filter] of [preprocessData]:
    [row.created && row.short_desc && row.total_sold && isNaN(row.short_desc)]. *)
Definition keep_row (row : RawRecord) : bool :=
  JS.truthy (created row) && JS.truthy (short_desc row) &&
  JS.truthy (total_sold row) &&
  match short_desc row with
  | Some d => JS.isNaN d
  | None => true
  end.

(** The callback of [map] in [preprocessData]; [None] is its [null]. *)
Definition normalize_entry (entry : RawRecord) : option SalesPoint :=
  if negb (JS.truthy (created entry)) || negb (JS.truthy (short_desc entry))
     || negb (JS.truthy (total_sold entry)) then None
  else
    match created entry, short_desc entry, total_sold entry with
    | Some c, Some d, Some t =>
        let dateParts := JS.split "-" c in
        if (length dateParts <? 2)%nat then None
        else
          let month := JS.parseInt (nth 1 dateParts EmptyString) in
          Some {| month := month; product := d; quantity := JS.parseFloat t |}
    | _, _, _ => None
    end.

Definition preprocessData (rawData : list RawRecord) : list SalesPoint :=
  let limitData := take 100 rawData in
  let filteredData := List.filter keep_row limitData in
  let result := omap id (map normalize_entry filteredData) in
  result.

(** ** Effects of the predict action *)

(** What the predict action does to the outside: it trains a model,
    asks it for a value, or raises a blocking notification. *)
Inductive Event : Type :=
| EvFit (xs : list (JS.num * nat)) (ys : list JS.double)
| EvPredict (input : JS.num * nat)
| EvAlert (msg : string).

(** A computation leaves a trace of events and returns a value, or
    stops with an exception ([None]). *)
Definition M (A : Type) : Type := (list Event * option A)%type.

Definition ret {A : Type} (a : A) : M A := ([], Some a).

Definition throw {A : Type} : M A := ([], None).

Definition emit (e : Event) : M unit := ([e], Some tt).

Definition bind {A B : Type} (m : M A) (k : A -> M B) : M B :=
  match m with
  | (t, Some a) => let '(t', r) := k a in (t ++ t', r)
  | (t, None) => (t, None)
  end.

Notation "'do' x <- m 'in' k" := (bind m (fun x => k))
  (at level 10, x name, m at level 100, k at level 200, only parsing).
Notation "'exec' m 'in' k" := (bind m (fun _ => k))
  (at level 10, m at level 100, k at level 200, only parsing).

Definition trace {A : Type} (m : M A) : list Event := fst m.
Definition result {A : Type} (m : M A) : option A := snd m.

(** The body of a [for] loop run over the values of its counter. *)
Fixpoint forEach {A B : Type} (body : A -> M B) (l : list A) : M (list B) :=
  match l with
  | [] => ret []
  | a :: r => do b <- body a in do bs <- forEach body r in ret (b :: bs)
  end.

Definition is_fit (e : Event) : bool :=
  match e with EvFit _ _ => true | _ => false end.

Definition is_alert (e : Event) : bool :=
  match e with EvAlert _ => true | _ => false end.

(** The inputs handed to [model.predict], in order. *)
Definition inference_inputs (t : list Event) : list (JS.num * nat) :=
  omap (fun e => match e with EvPredict i => Some i | _ => None end) t.

(** [[...new Set(l)]]: the distinct elements in order of first
    occurrence. *)
Fixpoint unique_from (seen l : list string) : list string :=
  match l with
  | [] => []
  | x :: r =>
      if existsb (String.eqb x) seen then unique_from seen r
      else x :: unique_from (x :: seen) r
  end.

Definition unique (l : list string) : list string := unique_from [] l.

(** [data.filter((entry) => entry.product === product)] *)
Definition filter_product (data : list SalesPoint) (p : string)
  : list SalesPoint :=
  List.filter (fun entry => String.eqb (product entry) p) data.

Definition months_error_msg : string :=
  "Please enter a positive number for months.".

Definition no_data_msg (p : string) : string :=
  String.append "No data found for the product: " p.

(** ** Modeling and presentation, over an arbitrary regressor *)

Section Regressor.

(** A run of training ([tf.sequential], [compile], [fit] for 100
    epochs) yields a fitted model; [predict] evaluates it at one
    feature row and gives the predicted quantity of type [F]. *)
Variable Model : Type.
Variable F : Type.
Variable fit : list (JS.num * nat) -> list JS.double -> Model.
Variable predict : Model -> JS.num * nat -> F.

Record PredictionPoint : Type := {
  pred_month : JS.num;
  predicted : F
}.

Record ChartEntry : Type := {
  chart_month : JS.num;
  actual : option JS.double;
  chart_predicted : option F
}.

(** The state of the component.  [months] is the horizon; the only
    control that could change it is disabled, so it is an integer. *)
Record State : Type := {
  data : list SalesPoint;
  months : Z;
  predictions : Obj.t PredictionPoint;
  loading : bool;
  selectedProduct : string;
  monthsError : string
}.

Definition initial_state : State :=
  {| data := []; months := 6; predictions := Obj.empty; loading := false;
     selectedProduct := ""; monthsError := "" |}.

Definition setData (d : list SalesPoint) (st : State) : State :=
  {| data := d; months := months st; predictions := predictions st;
     loading := loading st; selectedProduct := selectedProduct st;
     monthsError := monthsError st |}.

Definition setPredictions (p : Obj.t PredictionPoint)
    (st : State) : State :=
  {| data := data st; months := months st; predictions := p;
     loading := loading st; selectedProduct := selectedProduct st;
     monthsError := monthsError st |}.

Definition setLoading (b : bool) (st : State) : State :=
  {| data := data st; months := months st; predictions := predictions st;
     loading := b; selectedProduct := selectedProduct st;
     monthsError := monthsError st |}.

Definition setMonthsError (msg : string) (st : State) : State :=
  {| data := data st; months := months st; predictions := predictions st;
     loading := loading st; selectedProduct := selectedProduct st;
     monthsError := msg |}.

(** The [complete] callback of [handleFileUpload]. *)
Definition handleFileUpload (rows : list RawRecord) (st : State) : State :=
  setData (preprocessData rows) st.

(** Features [(month, index)] and labels for one product. *)
Definition prepareData (productData : list SalesPoint)
  : list (JS.num * nat) * list JS.double :=
  let months := map month productData in
  let quantities := map quantity productData in
  let xs := imap (fun index month => (month, index)) months in
  let ys := quantities in
  (xs, ys).

(** One product: train, then predict [months] future months.  On an
    empty [productData] the tensor constructor raises (and so would
    the read of [.month] on the missing last element). *)
Definition predictSalesForProduct (months : Z) (productData : list SalesPoint)
  : M (list PredictionPoint) :=
  match last productData with
  | None => throw
  | Some lastEntry =>
      let '(xs, ys) := prepareData productData in
      exec emit (EvFit xs ys) in
      let model := fit xs ys in
      let lastMonth := month lastEntry in
      forEach
        (fun i =>
           let inputTensor := (JS.add lastMonth (JS.Fin i), length productData) in
           exec emit (EvPredict inputTensor) in
           let predictedQuantity := predict model inputTensor in
           ret {| pred_month := JS.add lastMonth (JS.Fin i);
                  predicted := predictedQuantity |})
        (seqZ 1 months)
  end.

(** The [for (let product of uniqueProducts)] loop of [predictSales],
    with the table built so far. *)
Fixpoint predictLoop (months : Z) (data : list SalesPoint)
    (products : list string)
    (productPredictions : Obj.t PredictionPoint)
  : M (Obj.t PredictionPoint) :=
  match products with
  | [] => ret productPredictions
  | product :: rest =>
      let filteredData := filter_product data product in
      if (length filteredData =? 0)%nat then
        exec emit (EvAlert (no_data_msg product)) in
        predictLoop months data rest productPredictions
      else
        do predictions <- predictSalesForProduct months filteredData in
        predictLoop months data rest (Obj.set product predictions productPredictions)
  end.

(** The predict action.  When an exception escapes the loop the
    handler stops there: [loading] stays set and the table is not
    replaced. *)
Definition predictSales (st : State) : list Event * State :=
  if months st <=? 0 then
    ([], setMonthsError months_error_msg st)
  else
    let st1 := setLoading true (setMonthsError "" st) in
    let uniqueProducts := unique (map product (data st)) in
    match predictLoop (months st) (data st) uniqueProducts Obj.empty with
    | (t, Some productPredictions) =>
        (t, setLoading false (setPredictions productPredictions st1))
    | (t, None) => (t, st1)
    end.

(** The chart series of one product; [None] is the TypeError raised
    when [predictions[product]] is neither undefined nor an array. *)
Definition renderChartData (data : list SalesPoint)
    (predictions : Obj.t PredictionPoint) (product : string)
  : option (list ChartEntry) :=
  let filteredData := filter_product data product in
  actualEntries ←
    mapM (fun entry =>
            predictedEntry ←
              Obj.optional_call (Obj.get predictions product)
                (List.find (fun pred => JS.strict_eq (pred_month pred) (month entry)));
            Some {| chart_month := month entry;
                    actual := Some (quantity entry);
                    chart_predicted :=
                      match predictedEntry with
                      | Some (Some p) => Some (predicted p)
                      | _ => None
                      end |})
         filteredData;
  predictedEntries ←
    Obj.optional_call (Obj.get predictions product)
      (map (fun pred =>
              {| chart_month := pred_month pred;
                 actual := None;
                 chart_predicted := Some (predicted pred) |}));
  Some (actualEntries ++ default [] predictedEntries).

End Regressor.

Arguments pred_month {F} _.
Arguments predicted {F} _.
Arguments chart_month {F} _.
Arguments actual {F} _.
Arguments chart_predicted {F} _.
Arguments data {F} _.
Arguments months {F} _.
Arguments predictions {F} _.
Arguments loading {F} _.
Arguments selectedProduct {F} _.
Arguments monthsError {F} _.
Arguments predictSalesForProduct {Model F} fit predict months productData.
Arguments predictLoop {Model F} fit predict months data products productPredictions.
Arguments predictSales {Model F} fit predict st.
Arguments renderChartData {F} data predictions product.

(** ** The view *)

(** [handleProductChange]: the selector stores the chosen name. *)
Definition handleProductChange {F : Type} (value : string) (st : State F)
  : State F :=
  {| data := data st; months := months st; predictions := predictions st;
     loading := loading st; selectedProduct := value;
     monthsError := monthsError st |}.

(** The options of the product selector:
    [[...new Set(data.map((entry) => entry.product))]]. *)
Definition productOptions {F : Type} (st : State F) : list string :=
  unique (map product (data st)).

(** The chart of the selected product is drawn when
    [selectedProduct && predictions[selectedProduct]] holds (an array,
    even an empty one, is truthy, and so is a function found on the
    prototype chain). *)
Definition showsSelectedChart {F : Type} (st : State F) : bool :=
  JS.truthy (Some (selectedProduct st)) &&
  Obj.truthy (Obj.get (predictions st) (selectedProduct st)).

(** The charts of all products are drawn when
    [!selectedProduct && Object.keys(predictions).length > 0] holds. *)
Definition showsAllCharts {F : Type} (st : State F) : bool :=
  negb (JS.truthy (Some (selectedProduct st))) &&
  (0 <? size (Obj.keys (predictions st)))%nat.

(** ** Notions of the specification *)

(** The invariant the specification states for a sales point: a
    positive quantity and a month between 1 and 12. *)
Definition month_in_range (m : JS.num) : bool :=
  match m with
  | JS.Fin z => (1 <=? z) && (z <=? 12)
  | _ => false
  end.

Definition valid_point (sp : SalesPoint) : bool :=
  JS.positive (quantity sp) && month_in_range (month sp).

(** A non-empty string of decimal digits. *)
Definition digit_string (cs : list ascii) : Prop :=
  cs <> [] /\ forallb JS.is_digit cs = true.

(** The specification's "pure number": an optional minus sign, digits,
    and optionally a point followed by digits. *)
Definition pure_number (s : string) : Prop :=
  exists sgn ip frac,
    list_ascii_of_string s = sgn ++ ip ++ frac /\
    (sgn = [] \/ sgn = ["-"%char]) /\
    digit_string ip /\
    (frac = [] \/ exists fp, frac = "."%char :: fp /\ digit_string fp).

(** The sales point built from the three fields of a row that passed
    every check (the object literal that [normalize_entry] returns). *)
Definition entry_point (c d t : string) : SalesPoint :=
  {| month := JS.parseInt (nth 1 (JS.split "-" c) EmptyString);
     product := d;
     quantity := JS.parseFloat t |}.

(** ** Sample inputs *)

Definition row (c d t : string) : RawRecord :=
  {| created := Some c; short_desc := Some d; total_sold := Some t |}.

(** The two rows of the specification's end-to-end example. *)
Definition sample_rows : list RawRecord :=
  [row "2023-01-05" "Widget" "10"; row "2023-02-03" "Widget" "15"].

(** A row with month 13 and a negative quantity. *)
Definition out_of_range_row : RawRecord := row "2023-13-05" "Widget" "-5".

(** A row whose month and quantity do not parse. *)
Definition nan_row : RawRecord := row "2023-xx" "Widget" "abc".

(** A row without a description. *)
Definition incomplete_row : RawRecord :=
  {| created := Some "2023-01-05"; short_desc := None; total_sold := Some "3" |}.

(** Months that increase strictly from one point to the next. *)
Definition strictly_increasing (ms : list JS.num) : Prop :=
  StronglySorted (fun a b => JS.lt a b = true) ms.

(** The chart merge as the specification words it: the entries of the
    actual sales points, then one entry for each prediction whose month
    has no actual entry. *)
Definition chartMerge_spec {F : Type} (data : list SalesPoint)
    (predictions : Obj.t (PredictionPoint F)) (product : string)
  : list (ChartEntry F) :=
  let filteredData := filter_product data product in
  let preds := Obj.array_of (Obj.get predictions product) in
  let covered m :=
    existsb (fun entry => JS.strict_eq m (month entry)) filteredData in
  map (fun entry =>
         {| chart_month := month entry;
            actual := Some (quantity entry);
            chart_predicted :=
              predicted <$>
                List.find (fun pred => JS.strict_eq (pred_month pred) (month entry)) preds |})
      filteredData
  ++ map (fun pred =>
            {| chart_month := pred_month pred;
               actual := None;
               chart_predicted := Some (predicted pred) |})
         (List.filter (fun pred => negb (covered (pred_month pred))) preds).

(** A regressor that answers with the feature row it is asked about;
    it stands for a trained model in the worked examples. *)
Definition echo_fit (xs : list (JS.num * nat)) (ys : list JS.double) : unit := tt.

Definition echo_predict (model : unit) (input : JS.num * nat) : JS.num * nat :=
  input.

(** Two rows of one product, the later month first. *)
Definition unsorted_rows : list RawRecord :=
  [row "2023-05-05" "Widget" "10"; row "2023-01-03" "Widget" "15"].

(** The session after uploading [unsorted_rows] and predicting with the
    default horizon of 6 months. *)
Definition unsorted_session : State (JS.num * nat) :=
  snd (predictSales echo_fit echo_predict
         (handleFileUpload _ unsorted_rows (initial_state _))).

(** A session whose horizon is zero. *)
Definition zero_horizon_session : State (JS.num * nat) :=
  {| data := preprocessData sample_rows; months := 0; predictions := Obj.empty;
     loading := false; selectedProduct := ""; monthsError := "" |}.

(** The session after uploading the two sample rows, with a horizon of
    2 months. *)
Definition sample_session : State (JS.num * nat) :=
  {| data := preprocessData sample_rows; months := 2; predictions := Obj.empty;
     loading := false; selectedProduct := ""; monthsError := "" |}.

(** * Properties *)

(** ** Characters *)

Lemma digit_not_ws c : JS.is_digit c = true -> JS.is_ws c = false.
Proof. destruct c as [[] [] [] [] [] [] [] []]; vm_compute; congruence. Qed.

Lemma digit_not_minus c : JS.is_digit c = true -> Ascii.eqb c "-" = false.
Proof. destruct c as [[] [] [] [] [] [] [] []]; vm_compute; congruence. Qed.

Lemma digit_not_plus c : JS.is_digit c = true -> Ascii.eqb c "+" = false.
Proof. destruct c as [[] [] [] [] [] [] [] []]; vm_compute; congruence. Qed.

Lemma digit_not_I c : JS.is_digit c = true -> Ascii.eqb "I" c = false.
Proof. destruct c as [[] [] [] [] [] [] [] []]; vm_compute; congruence. Qed.

Lemma span_digits_app ds rest :
  forallb JS.is_digit ds = true ->
  match rest with c :: _ => JS.is_digit c = false | [] => True end ->
  JS.span_digits (ds ++ rest) = (ds, rest).
Proof.
  intros Hds Hrest. induction ds as [|d ds IH]; simpl in *.
  - destruct rest as [|c r]; [reflexivity|]. simpl. now rewrite Hrest.
  - apply andb_prop in Hds as [Hd Hds]. rewrite Hd, IH; auto.
Qed.

Lemma trim_start_id c cs : JS.is_ws c = false -> JS.trim_start (c :: cs) = c :: cs.
Proof. intros H. simpl. now rewrite H. Qed.

Lemma trim_id c cs d :
  JS.is_ws c = false -> JS.is_ws d = false ->
  JS.trim (c :: cs ++ [d]) = c :: cs ++ [d].
Proof.
  intros Hc Hd. unfold JS.trim. rewrite trim_start_id by assumption.
  change (c :: cs ++ [d]) with ((c :: cs) ++ [d]).
  rewrite rev_unit, trim_start_id by assumption.
  change (rev (d :: rev (c :: cs))) with (rev (rev (c :: cs)) ++ [d]).
  now rewrite rev_involutive.
Qed.

Lemma trim_single c : JS.is_ws c = false -> JS.trim [c] = [c].
Proof. intros H. unfold JS.trim. simpl. rewrite H. simpl. now rewrite H. Qed.

Lemma trim_start_noop cs :
  (forall c, head cs = Some c -> JS.is_ws c = false) -> JS.trim_start cs = cs.
Proof.
  destruct cs as [|c cs]; [reflexivity|]. intros H.
  apply trim_start_id, H. reflexivity.
Qed.

Lemma trim_noop cs :
  (forall c, head cs = Some c -> JS.is_ws c = false) ->
  (forall d, last cs = Some d -> JS.is_ws d = false) ->
  JS.trim cs = cs.
Proof.
  intros Hh Hl. unfold JS.trim. rewrite (trim_start_noop cs) by assumption.
  rewrite trim_start_noop; [apply rev_involutive|].
  intros c Hc. apply Hl.
  destruct cs as [|x l] using rev_ind; [discriminate|].
  rewrite rev_unit in Hc. simpl in Hc. now rewrite last_snoc.
Qed.

Lemma digit_string_head ds rest c :
  digit_string ds -> head (ds ++ rest) = Some c -> JS.is_digit c = true.
Proof.
  intros [Hne Hall] Hc. destruct ds as [|d ds]; [congruence|].
  simpl in *. apply andb_prop in Hall as [Hd _]. congruence.
Qed.

Lemma digit_string_last ds c :
  digit_string ds -> last ds = Some c -> JS.is_digit c = true.
Proof.
  intros [_ Hall] Hc. rewrite forallb_forall in Hall. apply Hall.
  apply list_elem_of_In. destruct ds as [|x l] using rev_ind; [discriminate|].
  rewrite last_snoc in Hc. injection Hc as ->. set_solver.
Qed.

(** A pure number converts to a number: [isNaN] is false on it. *)
Lemma pure_number_numeric s : pure_number s -> JS.isNaN s = false.
Proof.
  intros (sgn & ip & frac & Hs & Hsgn & Hip & Hfrac).
  unfold JS.isNaN, JS.is_numeric_string. rewrite Hs. clear Hs s.
  assert (Hlast : forall d, last (sgn ++ ip ++ frac) = Some d -> JS.is_digit d = true).
  { intros d. rewrite app_assoc. destruct Hfrac as [-> | (fp & -> & Hfp)].
    - rewrite app_nil_r. destruct Hip as [Hne Hall].
      destruct ip as [|x l] using rev_ind; [congruence|].
      rewrite app_assoc, last_snoc. intros [= <-].
      rewrite forallb_app in Hall. apply andb_prop in Hall as [_ Hx].
      simpl in Hx. now destruct (JS.is_digit x).
    - destruct Hfp as [Hne Hall].
      destruct fp as [|x l] using rev_ind; [congruence|].
      change ("."%char :: l ++ [x]) with (("."%char :: l) ++ [x]).
      rewrite app_assoc, last_snoc. intros [= <-].
      rewrite forallb_app in Hall. apply andb_prop in Hall as [_ Hx].
      simpl in Hx. now destruct (JS.is_digit x). }
  assert (Hhead : forall c, head (sgn ++ ip ++ frac) = Some c -> JS.is_ws c = false).
  { intros c Hc. destruct Hsgn as [-> | ->].
    - apply digit_not_ws. eapply digit_string_head; eauto.
    - simpl in Hc. now injection Hc as <-. }
  rewrite trim_noop; [|assumption|intros d Hd; apply digit_not_ws; auto].
  assert (Hscan : exists v, JS.scan_decimal (sgn ++ ip ++ frac) = Some (v, [])).
  { assert (Hip' := Hip). destruct Hip' as [Hne Hall].
    destruct ip as [|i0 ip]; [congruence|].
    assert (Hi0 : JS.is_digit i0 = true) by (simpl in Hall; now apply andb_prop in Hall).
    assert (Hsign : JS.scan_sign (sgn ++ (i0 :: ip) ++ frac)
                    = (match sgn with [] => false | _ => true end, (i0 :: ip) ++ frac)).
    { destruct Hsgn as [-> | ->]; [|reflexivity].
      simpl. now rewrite (digit_not_minus i0), (digit_not_plus i0). }
    unfold JS.scan_decimal. rewrite Hsign.
    assert (Hinf : JS.strip_prefix JS.infinity_chars ((i0 :: ip) ++ frac) = None).
    { unfold JS.infinity_chars. cbn -[Ascii.eqb]. now rewrite digit_not_I. }
    rewrite Hinf. unfold JS.scan_mantissa.
    destruct Hfrac as [-> | (fp & -> & Hfp)].
    - rewrite span_digits_app by (auto; exact I). eauto.
    - rewrite span_digits_app by (auto; reflexivity).
      change (Ascii.eqb "." ".") with true. cbv iota.
      destruct Hfp as [Hfne Hfall].
      assert (Hsp : JS.span_digits fp = (fp, [])).
      { rewrite <- (app_nil_r fp) at 1. now apply span_digits_app. }
      rewrite Hsp. destruct fp; [congruence|]. simpl JS.scan_exponent. eauto. }
  destruct Hscan as [v ->].
  destruct (sgn ++ ip ++ frac); reflexivity.
Qed.

(** ** Normalization *)

Lemma truthy_Some f : JS.truthy f = true <-> exists s, f = Some s /\ s <> ""%string.
Proof.
  destruct f as [s|]; simpl.
  - rewrite negb_true_iff, String.eqb_neq. split; [eauto|].
    intros (s' & [= <-] & H). exact H.
  - split; [discriminate|]. intros (s' & H & _). discriminate.
Qed.

Lemma truthy_None : JS.truthy None = false.
Proof. reflexivity. Qed.

(** A row passes the first filter exactly when its three fields are
    non-empty strings and the description does not convert to a number. *)
Lemma keep_row_true row :
  keep_row row = true <->
  exists c d t,
    created row = Some c /\ short_desc row = Some d /\ total_sold row = Some t /\
    c <> ""%string /\ d <> ""%string /\ t <> ""%string /\ JS.isNaN d = true.
Proof.
  unfold keep_row. rewrite !andb_true_iff, !truthy_Some. split.
  - intros [[[(c & Hc & Hc') (d & Hd & Hd')] (t & Ht & Ht')] Hn].
    rewrite Hd in Hn. exists c, d, t. auto 10.
  - intros (c & d & t & Hc & Hd & Ht & Hc' & Hd' & Ht' & Hn).
    rewrite Hd. eauto 10.
Qed.

Lemma normalize_entry_kept row c d t :
  created row = Some c -> short_desc row = Some d -> total_sold row = Some t ->
  c <> ""%string -> d <> ""%string -> t <> ""%string ->
  normalize_entry row =
    if (length (JS.split "-" c) <? 2)%nat then None
    else Some {| month := JS.parseInt (nth 1 (JS.split "-" c) EmptyString);
                 product := d; quantity := JS.parseFloat t |}.
Proof.
  intros Hc Hd Ht Hc' Hd' Ht'. unfold normalize_entry.
  assert (JS.truthy (created row) = true) as -> by (apply truthy_Some; eauto).
  assert (JS.truthy (short_desc row) = true) as -> by (apply truthy_Some; eauto).
  assert (JS.truthy (total_sold row) = true) as -> by (apply truthy_Some; eauto).
  simpl. now rewrite Hc, Hd, Ht.
Qed.

Lemma omap_id_map {A B : Type} (f : A -> option B) (l : list A) :
  omap id (map f l) = omap f l.
Proof.
  induction l as [|a l IH]; [reflexivity|]. simpl.
  destruct (f a); [f_equal|]; apply IH.
Qed.

Lemma preprocessData_unfold rawData :
  preprocessData rawData =
  omap normalize_entry (List.filter keep_row (take 100 rawData)).
Proof. unfold preprocessData. apply omap_id_map. Qed.

Lemma preprocessData_single row :
  preprocessData [row] =
  if keep_row row then
    match normalize_entry row with Some sp => [sp] | None => [] end
  else [].
Proof.
  rewrite preprocessData_unfold. simpl. destruct (keep_row row); [|reflexivity].
  simpl. now destruct (normalize_entry row).
Qed.

(** The data set is the concatenation of what each of the first 100
    rows contributes on its own. *)
Lemma preprocessData_rows rawData :
  preprocessData rawData =
  concat (map (fun row => preprocessData [row]) (take 100 rawData)).
Proof.
  rewrite preprocessData_unfold.
  induction (take 100 rawData) as [|row l IH]; [reflexivity|].
  simpl concat. rewrite preprocessData_single, <- IH. simpl.
  destruct (keep_row row); [|reflexivity].
  simpl. now destruct (normalize_entry row).
Qed.

Lemma preprocessData_elem sp rawData :
  sp ∈ preprocessData rawData <->
  exists row, row ∈ take 100 rawData /\ keep_row row = true /\
              normalize_entry row = Some sp.
Proof.
  rewrite preprocessData_unfold, list_elem_of_omap. split.
  - intros (row & Hin & Hn). exists row.
    apply list_elem_of_In, filter_In in Hin as [Hin Hk].
    apply list_elem_of_In in Hin. auto.
  - intros (row & Hin & Hk & Hn). exists row. split; [|exact Hn].
    apply list_elem_of_In, filter_In. split; [|exact Hk].
    now apply list_elem_of_In.
Qed.

Lemma omap_length_le {A B : Type} (f : A -> option B) (l : list A) :
  (length (omap f l) <= length l)%nat.
Proof.
  induction l as [|a l IH]; [reflexivity|]. simpl.
  destruct (f a); simpl; unfold omap in IH; lia.
Qed.

Lemma preprocessData_length_filter rawData :
  (length (preprocessData rawData)
   <= length (List.filter keep_row (take 100 rawData)))%nat.
Proof. rewrite preprocessData_unfold. apply omap_length_le. Qed.

Lemma filter_length_bound {A : Type} (f : A -> bool) (l : list A) :
  (length (List.filter f l) <= length l)%nat.
Proof.
  induction l as [|a l IH]; simpl; [lia|]. destruct (f a); simpl; lia.
Qed.

Example preprocessData_sample :
  preprocessData sample_rows =
  [ {| month := JS.Fin 1; product := "Widget"; quantity := JS.number 10 |};
    {| month := JS.Fin 2; product := "Widget"; quantity := JS.number 15 |} ].
Proof. reflexivity. Qed.

Example preprocessData_nan_row :
  preprocessData [nan_row] =
  [ {| month := JS.NaN; product := "Widget"; quantity := S754_nan |} ].
Proof. reflexivity. Qed.

(** C2, as stated, fails: the row dated [2023-13-05] with quantity
    [-5] yields a sales point with month 13 and a negative quantity, so
    not every point of the data set has a positive quantity and a month
    in [1,12]. *)
Lemma preprocessData_point_out_of_range :
  ~ (forall sp, sp ∈ preprocessData [out_of_range_row] -> valid_point sp = true).
Proof.
  intros H.
  specialize (H {| month := JS.Fin 13; product := "Widget";
                   quantity := JS.number (-5) |}).
  discriminate H. vm_compute. constructor.
Qed.

(** C2, amended: a sales point is in the data set exactly when one of
    the first 100 rows has non-empty date, description and quantity
    fields, a description that does not convert to a number and a date
    with at least two parts; its month is the integer parse of the
    second part and its quantity the float parse of the quantity field,
    with no check of their range.  Every other row is dropped;
    normalization is a total function, it raises no error. *)
Theorem preprocessData_points_characterised (rawData : list RawRecord)
    (sp : SalesPoint) :
  sp ∈ preprocessData rawData <->
  exists row c d t,
    row ∈ take 100 rawData /\
    created row = Some c /\ short_desc row = Some d /\ total_sold row = Some t /\
    c <> ""%string /\ d <> ""%string /\ t <> ""%string /\
    JS.isNaN d = true /\
    (2 <= length (JS.split "-" c))%nat /\
    month sp = JS.parseInt (nth 1 (JS.split "-" c) EmptyString) /\
    product sp = d /\
    quantity sp = JS.parseFloat t.
Proof.
  rewrite preprocessData_elem. split.
  - intros (r & Hin & Hk & Hn).
    apply keep_row_true in Hk as (c & d & t & Hc & Hd & Ht & Hc' & Hd' & Ht' & Hnan).
    rewrite (normalize_entry_kept r c d t) in Hn by assumption.
    destruct (length (JS.split "-" c) <? 2)%nat eqn:Hlen; [discriminate|].
    apply Nat.ltb_ge in Hlen. injection Hn as <-.
    exists r, c, d, t. simpl. auto 15.
  - intros (r & c & d & t & Hin & Hc & Hd & Ht & Hc' & Hd' & Ht' & Hnan & Hlen & Hm & Hp & Hq).
    exists r. split; [exact Hin|]. split.
    + apply keep_row_true. exists c, d, t. auto 10.
    + rewrite (normalize_entry_kept r c d t) by assumption.
      apply Nat.ltb_ge in Hlen. rewrite Hlen.
      destruct sp as [m p q]. simpl in *. now subst.
Qed.

(** C4: only the first 100 rows are looked at, and they are cut off
    before the filter runs: the result is that of the truncated input,
    it is no longer than the rows the filter keeps among those 100, and
    so has at most 100 elements. *)
Theorem preprocessData_first_100 (rawData : list RawRecord) :
  preprocessData rawData = preprocessData (take 100 rawData) /\
  (length (preprocessData rawData)
   <= length (List.filter keep_row (take 100 rawData)))%nat /\
  (length (preprocessData rawData) <= 100)%nat.
Proof.
  split; [|split].
  - rewrite !preprocessData_unfold, take_take. reflexivity.
  - apply preprocessData_length_filter.
  - pose proof (preprocessData_length_filter rawData) as H1.
    pose proof (filter_length_bound keep_row (take 100 rawData)) as H2.
    rewrite length_take in H2. lia.
Qed.

(** The cut comes first: a dropped row among the first 100 is not
    replaced by row 101. *)
Example preprocessData_truncates_before_filter :
  length (preprocessData (incomplete_row :: repeat (row "2023-01-05" "Widget" "10") 100))
  = 99%nat.
Proof. vm_compute. reflexivity. Qed.

(** C8: the data set is made of the contributions of the first 100
    rows, one row at a time; a row contributes a sales point only if it
    passes the filter, that is only if its three fields are present
    (and non-empty) and its description is not a pure number, and the
    product of every sales point of the data set is such a
    description; a row that lacks one of the three fields contributes
    nothing; so the data set is no longer than the truncated input. *)
Theorem preprocessData_keeps_only_complete_rows (rawData : list RawRecord) :
  preprocessData rawData =
    concat (map (fun r => preprocessData [r]) (take 100 rawData)) /\
  (forall r, preprocessData [r] <> [] -> keep_row r = true) /\
  (forall r, keep_row r = true ->
     exists c d t,
       created r = Some c /\ short_desc r = Some d /\ total_sold r = Some t /\
       c <> ""%string /\ d <> ""%string /\ t <> ""%string /\ ~ pure_number d) /\
  (forall sp, sp ∈ preprocessData rawData ->
     exists r c d t,
       r ∈ take 100 rawData /\
       created r = Some c /\ short_desc r = Some d /\ total_sold r = Some t /\
       c <> ""%string /\ d <> ""%string /\ t <> ""%string /\
       ~ pure_number d /\ product sp = d) /\
  (forall r, created r = None \/ short_desc r = None \/ total_sold r = None ->
     keep_row r = false /\ preprocessData [r] = []) /\
  (length (preprocessData rawData) <= length (take 100 rawData))%nat.
Proof.
  assert (Hkept : forall r, keep_row r = true ->
            exists c d t,
              created r = Some c /\ short_desc r = Some d /\ total_sold r = Some t /\
              c <> ""%string /\ d <> ""%string /\ t <> ""%string /\ ~ pure_number d).
  { intros r Hk.
    apply keep_row_true in Hk as (c & d & t & Hc & Hd & Ht & Hc' & Hd' & Ht' & Hnan).
    exists c, d, t. repeat (split; [assumption|]).
    intros Hp. apply pure_number_numeric in Hp. congruence. }
  split; [apply preprocessData_rows|]. split; [|split; [exact Hkept|split; [|split]]].
  - intros r Hne. rewrite preprocessData_single in Hne.
    destruct (keep_row r); [reflexivity | congruence].
  - intros sp Hsp. apply preprocessData_elem in Hsp as (r & Hin & Hk & Hn).
    destruct (Hkept r Hk) as (c & d & t & Hc & Hd & Ht & Hc' & Hd' & Ht' & Hpure).
    exists r, c, d, t. repeat (split; [assumption|]).
    rewrite (normalize_entry_kept r c d t) in Hn by assumption.
    destruct (length (JS.split "-" c) <? 2)%nat; [discriminate|].
    now injection Hn as <-.
  - intros r Hmiss.
    assert (Hk : keep_row r = false).
    { unfold keep_row.
      destruct Hmiss as [-> | [-> | ->]]; simpl;
        rewrite ?andb_false_r; reflexivity. }
    split; [exact Hk|]. rewrite preprocessData_single. now rewrite Hk.
  - pose proof (preprocessData_length_filter rawData) as H1.
    pose proof (filter_length_bound keep_row (take 100 rawData)) as H2. lia.
Qed.

(** C10: a row that passes the filter and whose date has at least two
    parts always yields its sales point, whatever the parses of the
    month and of the quantity give: the point carries these values as
    they are, NaN included. *)
Theorem preprocessData_emits_even_nan (rawData : list RawRecord)
    (r : RawRecord) (c d t : string) :
  r ∈ take 100 rawData ->
  keep_row r = true ->
  created r = Some c -> short_desc r = Some d -> total_sold r = Some t ->
  (2 <= length (JS.split "-" c))%nat ->
  preprocessData [r] = [entry_point c d t] /\
  entry_point c d t ∈ preprocessData rawData.
Proof.
  intros Hin Hk Hc Hd Ht Hlen.
  assert (Hn : normalize_entry r = Some (entry_point c d t)).
  { apply keep_row_true in Hk as (c' & d' & t' & Hc1 & Hd1 & Ht1 & Hc' & Hd' & Ht' & _).
    assert (c' = c) by congruence. assert (d' = d) by congruence.
    assert (t' = t) by congruence. subst.
    rewrite (normalize_entry_kept r c d t) by assumption.
    apply Nat.ltb_ge in Hlen. now rewrite Hlen. }
  split.
  - rewrite preprocessData_single, Hk, Hn. reflexivity.
  - apply preprocessData_elem. eauto.
Qed.

(** The row [2023-xx / Widget / abc] is stored with a NaN month and a
    NaN quantity. *)
Lemma preprocessData_emits_even_nan_witness :
  preprocessData [nan_row] =
    [ {| month := JS.NaN; product := "Widget"; quantity := S754_nan |} ] /\
  {| month := JS.NaN; product := "Widget"; quantity := S754_nan |}
    ∈ preprocessData [nan_row].
Proof.
  exact (preprocessData_emits_even_nan [nan_row] nan_row "2023-xx" "Widget" "abc"
           (list_elem_of_here _ _) eq_refl eq_refl eq_refl eq_refl
           (le_n 2)).
Defined.

(** ** Numbers *)

Lemma round_to_double_exact z : Z.abs z < 2 ^ 53 -> JS.round_to_double z = JS.Fin z.
Proof.
  intros H. unfold JS.round_to_double.
  apply Z.ltb_lt in H. now rewrite H.
Qed.

Lemma add_exact a b : Z.abs (a + b) < 2 ^ 53 -> JS.add (JS.Fin a) (JS.Fin b) = JS.Fin (a + b).
Proof. intros H. simpl. now apply round_to_double_exact. Qed.

Lemma add_NaN_l x : JS.add JS.NaN x = JS.NaN.
Proof. now destruct x. Qed.

Lemma Fin_seq_increasing m len start :
  strictly_increasing (map (fun i => JS.Fin (Z.of_nat i + m)) (seq start len)).
Proof.
  unfold strictly_increasing. revert start.
  induction len as [|len IH]; intros start; simpl; constructor; [apply IH|].
  apply Forall_forall. intros x Hx.
  apply list_elem_of_In, in_map_iff in Hx as (i & <- & Hi).
  apply in_seq in Hi. simpl. apply Z.ltb_lt. lia.
Qed.

Lemma Fin_seqZ_increasing m n : strictly_increasing (map JS.Fin (seqZ m n)).
Proof.
  unfold seqZ. change (map JS.Fin ((fun i => Z.of_nat i + m) <$> seq 0 (Z.to_nat n)))
    with (map JS.Fin (map (fun i => Z.of_nat i + m) (seq 0 (Z.to_nat n)))).
  rewrite map_map. apply Fin_seq_increasing.
Qed.

(** ** Modeling *)

Section RegressorProperties.

Context {Model F : Type}.
Variable fit : list (JS.num * nat) -> list JS.double -> Model.
Variable predict : Model -> JS.num * nat -> F.

(** A loop whose body emits one event and returns a value runs to the
    end. *)
Lemma forEach_emit {A B : Type} (ev : A -> Event) (val : A -> B) (l : list A) :
  forEach (fun a => exec emit (ev a) in ret (val a)) l
  = (map ev l, Some (map val l)).
Proof.
  induction l as [|a l IH]; [reflexivity|].
  cbn [forEach]. rewrite IH. unfold bind, emit, ret. simpl.
  now rewrite app_nil_r.
Qed.

(** What [predictSalesForProduct] does on a non-empty product. *)
Lemma predictSalesForProduct_nonempty months productData lastEntry :
  last productData = Some lastEntry ->
  predictSalesForProduct fit predict months productData =
  ( EvFit (fst (prepareData productData)) (snd (prepareData productData))
      :: map (fun i => EvPredict (JS.add (month lastEntry) (JS.Fin i), length productData))
             (seqZ 1 months),
    Some (map (fun i =>
                 {| pred_month := JS.add (month lastEntry) (JS.Fin i);
                    predicted :=
                      predict (fit (fst (prepareData productData))
                                   (snd (prepareData productData)))
                              (JS.add (month lastEntry) (JS.Fin i), length productData) |})
              (seqZ 1 months)) ).
Proof.
  intros Hlast. unfold predictSalesForProduct. rewrite Hlast.
  destruct (prepareData productData) as [xs ys] eqn:Hp. simpl fst. simpl snd.
  unfold bind at 1. unfold emit.
  rewrite (forEach_emit
             (fun i => EvPredict (JS.add (month lastEntry) (JS.Fin i), length productData))
             (fun i => {| pred_month := JS.add (month lastEntry) (JS.Fin i);
                          predicted := predict (fit xs ys)
                            (JS.add (month lastEntry) (JS.Fin i), length productData) |})).
  reflexivity.
Qed.

Lemma last_is_Some {A : Type} (l : list A) : l <> [] -> exists x, last l = Some x.
Proof.
  intros H. destruct l as [|a l] using rev_ind; [congruence|].
  exists a. apply last_snoc.
Qed.

Lemma inference_inputs_predict (inp : Z -> JS.num * nat) (l : list Z) :
  inference_inputs (map (fun i => EvPredict (inp i)) l) = map inp l.
Proof.
  unfold inference_inputs. induction l as [|a l IH]; [reflexivity|].
  simpl. f_equal. exact IH.
Qed.


(** Whatever the last month is, the loop yields one point per step of
    the counter, with month [lastMonth + i]. *)
Lemma predictSalesForProduct_months months productData lastEntry :
  last productData = Some lastEntry ->
  exists preds,
    result (predictSalesForProduct fit predict months productData) = Some preds /\
    length preds = Z.to_nat months /\
    map pred_month preds =
      map (fun i => JS.add (month lastEntry) (JS.Fin i)) (seqZ 1 months).
Proof.
  intros Hlast. rewrite (predictSalesForProduct_nonempty _ _ _ Hlast).
  eexists. split; [reflexivity|]. split.
  - now rewrite length_map, length_seqZ.
  - now rewrite map_map.
Qed.

(** C3, amended: for a product whose last sales point has an integer
    month [lastMonth] (not NaN, not an infinity) and a positive horizon
    [H] with [|lastMonth| + H < 2^53], modeling returns exactly [H]
    prediction points whose months are the strictly increasing
    consecutive integers [lastMonth+1, ..., lastMonth+H]. *)
Theorem predictSalesForProduct_consecutive_months (months : Z)
    (productData : list SalesPoint) (lastEntry : SalesPoint) (z : Z) :
  last productData = Some lastEntry ->
  month lastEntry = JS.Fin z ->
  0 < months ->
  Z.abs z + months < 2 ^ 53 ->
  exists preds,
    result (predictSalesForProduct fit predict months productData) = Some preds /\
    length preds = Z.to_nat months /\
    map pred_month preds = map JS.Fin (seqZ (z + 1) months) /\
    strictly_increasing (map pred_month preds).
Proof.
  intros Hlast Hz Hpos Hsafe.
  destruct (predictSalesForProduct_months months productData lastEntry Hlast)
    as (preds & Hres & Hlen & Hmonths).
  assert (Heq : map pred_month preds = map JS.Fin (seqZ (z + 1) months)).
  { rewrite Hmonths, Hz, <- (fmap_add_seqZ z 1 months).
    change (map JS.Fin (Z.add z <$> seqZ 1 months))
      with (map JS.Fin (map (Z.add z) (seqZ 1 months))).
    rewrite map_map. apply map_ext_in. intros i Hi.
    apply list_elem_of_In, elem_of_seqZ in Hi. apply add_exact. lia. }
  exists preds. repeat split; try assumption.
  rewrite Heq. apply Fin_seqZ_increasing.
Qed.

(** C7: every input handed to the model for a future month has the
    number of training rows as its second component, the same at every
    step, and each prediction point stores the model's answer on that
    input. *)
Theorem inference_reuses_row_count (months : Z) (productData : list SalesPoint)
    (lastEntry : SalesPoint) :
  last productData = Some lastEntry ->
  inference_inputs (trace (predictSalesForProduct fit predict months productData))
    = map (fun i => (JS.add (month lastEntry) (JS.Fin i), length productData))
          (seqZ 1 months) /\
  Forall (fun input => snd input = length productData)
    (inference_inputs (trace (predictSalesForProduct fit predict months productData))) /\
  exists preds,
    result (predictSalesForProduct fit predict months productData) = Some preds /\
    Forall (fun pp =>
              predicted pp =
                predict (fit (fst (prepareData productData))
                             (snd (prepareData productData)))
                        (pred_month pp, length productData))
           preds.
Proof.
  intros Hlast. rewrite (predictSalesForProduct_nonempty _ _ _ Hlast).
  unfold trace, result. cbn [fst snd].
  assert (Hin : inference_inputs
                  (EvFit (fst (prepareData productData)) (snd (prepareData productData))
                   :: map (fun i => EvPredict
                                      (JS.add (month lastEntry) (JS.Fin i), length productData))
                          (seqZ 1 months))
                = map (fun i => (JS.add (month lastEntry) (JS.Fin i), length productData))
                      (seqZ 1 months)).
  { apply (inference_inputs_predict
             (fun i => (JS.add (month lastEntry) (JS.Fin i), length productData))). }
  rewrite Hin. split; [reflexivity|]. split.
  - apply Forall_forall. intros x Hx.
    apply list_elem_of_In, in_map_iff in Hx as (i & <- & _). reflexivity.
  - eexists. split; [reflexivity|].
    apply Forall_forall. intros x Hx.
    apply list_elem_of_In, in_map_iff in Hx as (i & <- & _). reflexivity.
Qed.

(** C5: with a horizon of zero or less the predict action only records
    the rejection message: no event occurs (no model is trained or
    queried), and the prediction table and the data set stay as they
    were. *)
Theorem predictSales_rejects_nonpositive (st : State F) :
  months st <= 0 ->
  fst (predictSales fit predict st) = [] /\
  monthsError (snd (predictSales fit predict st)) = months_error_msg /\
  predictions (snd (predictSales fit predict st)) = predictions st /\
  data (snd (predictSales fit predict st)) = data st /\
  loading (snd (predictSales fit predict st)) = loading st.
Proof.
  intros H. unfold predictSales. apply Z.leb_le in H. rewrite H.
  repeat split.
Qed.

End RegressorProperties.

Lemma predictSalesForProduct_consecutive_months_witness :
  exists preds,
    result (predictSalesForProduct echo_fit echo_predict 2 (preprocessData sample_rows))
      = Some preds /\
    length preds = 2%nat /\
    map pred_month preds = [JS.Fin 3; JS.Fin 4] /\
    strictly_increasing (map pred_month preds).
Proof.
  exact (predictSalesForProduct_consecutive_months echo_fit echo_predict 2
           (preprocessData sample_rows)
           {| month := JS.Fin 2; product := "Widget"; quantity := JS.number 15 |}
           2 eq_refl eq_refl eq_refl eq_refl).
Defined.

(** C3, as stated, fails: the product of the row dated [2023-xx] has a
    last month of NaN, and with the default horizon of 6 its six
    prediction points all have month NaN: no increasing integers. *)
Lemma predictSalesForProduct_nan_months :
  ~ (exists preds,
       result (predictSalesForProduct echo_fit echo_predict 6 (preprocessData [nan_row]))
         = Some preds /\
       length preds = 6%nat /\
       strictly_increasing (map pred_month preds)).
Proof.
  intros (preds & Hres & _ & Hinc).
  vm_compute in Hres. injection Hres as <-.
  inversion Hinc as [|a l _ Hall]; subst.
  inversion Hall as [|b l' Hlt _]; subst.
  discriminate Hlt.
Qed.

(** Beyond [2^53] the months stop increasing as well: adding 1 to
    [2^53] gives [2^53] again. *)
Example add_saturates :
  JS.add (JS.Fin (2 ^ 53)) (JS.Fin 1) = JS.Fin (2 ^ 53).
Proof. vm_compute. reflexivity. Qed.

Lemma inference_reuses_row_count_witness :
  inference_inputs
    (trace (predictSalesForProduct echo_fit echo_predict 2 (preprocessData sample_rows)))
    = [(JS.Fin 3, 2%nat); (JS.Fin 4, 2%nat)] /\
  Forall (fun input => snd input = 2%nat)
    (inference_inputs
       (trace (predictSalesForProduct echo_fit echo_predict 2 (preprocessData sample_rows)))) /\
  exists preds,
    result (predictSalesForProduct echo_fit echo_predict 2 (preprocessData sample_rows))
      = Some preds /\
    Forall (fun pp => predicted pp = (pred_month pp, 2%nat)) preds.
Proof.
  exact (inference_reuses_row_count echo_fit echo_predict 2 (preprocessData sample_rows)
           {| month := JS.Fin 2; product := "Widget"; quantity := JS.number 15 |}
           eq_refl).
Defined.

Lemma predictSales_rejects_nonpositive_witness :
  fst (predictSales echo_fit echo_predict zero_horizon_session) = [] /\
  monthsError (snd (predictSales echo_fit echo_predict zero_horizon_session))
    = months_error_msg /\
  predictions (snd (predictSales echo_fit echo_predict zero_horizon_session))
    = Obj.empty /\
  data (snd (predictSales echo_fit echo_predict zero_horizon_session))
    = preprocessData sample_rows /\
  loading (snd (predictSales echo_fit echo_predict zero_horizon_session)) = false.
Proof.
  apply (predictSales_rejects_nonpositive echo_fit echo_predict zero_horizon_session).
  vm_compute. discriminate.
Defined.

(** ** Tables *)

Section TableFacts.

Context {A : Type}.
Implicit Types (o : Obj.t A) (k q : string) (a b : list A).

Lemma own_set_ne o k q a :
  k <> q -> Obj.own (Obj.set k a o) !! q = Obj.own o !! q.
Proof.
  intros Hne. unfold Obj.set.
  destruct (String.eqb k "__proto__"); [destruct (Obj.own o !! k)|];
    cbn [Obj.own]; try reflexivity; now apply lookup_insert_ne.
Qed.

Lemma own_set_dom o k a : dom (Obj.own (Obj.set k a o)) ⊆ dom (Obj.own o) ∪ {[k]}.
Proof.
  unfold Obj.set.
  destruct (String.eqb k "__proto__"); [destruct (Obj.own o !! k)|];
    cbn [Obj.own]; rewrite ?dom_insert_L;
    try (apply union_least; [apply union_subseteq_r | apply union_subseteq_l]).
  apply union_subseteq_l.
Qed.

(** An assignment stores an own property, except for [__proto__]. *)
Lemma own_set_eq o k a :
  k <> "__proto__"%string -> Obj.own (Obj.set k a o) !! k = Some a.
Proof.
  intros Hne. unfold Obj.set. apply String.eqb_neq in Hne. rewrite Hne.
  cbn [Obj.own]. apply lookup_insert_eq.
Qed.

(** An assignment to [__proto__] leaves the own properties as they
    are on a table that has no own property of that name. *)
Lemma own_set_proto o a :
  Obj.own o !! "__proto__"%string = None ->
  Obj.own (Obj.set "__proto__" a o) = Obj.own o /\
  Obj.proto (Obj.set "__proto__" a o) = Some a.
Proof. intros H. unfold Obj.set. cbn [String.eqb Ascii.eqb Bool.eqb]. now rewrite H. Qed.

Lemma proto_set_ne o k a :
  k <> "__proto__"%string -> Obj.proto (Obj.set k a o) = Obj.proto o.
Proof.
  intros Hne. unfold Obj.set. apply String.eqb_neq in Hne. now rewrite Hne.
Qed.

(** Reading back what was just assigned gives the array, under every
    name. *)
Lemma get_set_eq o k a : Obj.get (Obj.set k a o) k = Obj.Array a.
Proof.
  unfold Obj.set, Obj.get. destruct (String.eqb k "__proto__") eqn:Hk.
  - destruct (Obj.own o !! k) eqn:Ho; cbn [Obj.own Obj.proto].
    + now rewrite lookup_insert_eq.
    + now rewrite Ho.
  - cbn [Obj.own]. now rewrite lookup_insert_eq.
Qed.

(** An array read under one name is still read after an assignment to
    another name. *)
Lemma get_set_ne o k q a b :
  k <> q -> Obj.get o q = Obj.Array b -> Obj.get (Obj.set k a o) q = Obj.Array b.
Proof.
  intros Hne Hq. unfold Obj.get in *. rewrite (own_set_ne o k q a Hne).
  destruct (Obj.own o !! q) as [c|] eqn:Ho; [exact Hq|].
  destruct (String.eqb q "__proto__") eqn:Hp.
  - apply String.eqb_eq in Hp. subst q. now rewrite proto_set_ne.
  - unfold Obj.inherited in Hq.
    destruct (Obj.proto o);
      repeat match type of Hq with
             | context [if ?c then _ else _] => destruct c
             | context [match Obj.index_of_key ?x with _ => _ end] =>
                 destruct (Obj.index_of_key x)
             end; discriminate.
Qed.

(** The empty table has no key; what it gives for a name comes from
    [Object.prototype]. *)
Lemma get_empty k :
  Obj.get (Obj.empty : Obj.t A) k =
  if Obj.mem_name k Obj.object_prototype_names then Obj.Other true
  else Obj.Undefined.
Proof.
  unfold Obj.get, Obj.empty, Obj.inherited. cbn [Obj.own Obj.proto].
  rewrite lookup_empty. destruct (String.eqb k "__proto__") eqn:Hk; [|reflexivity].
  apply String.eqb_eq in Hk. now subst.
Qed.

End TableFacts.

(** ** The predict action *)

Section PredictAction.

Context {Model F : Type}.
Variable fit : list (JS.num * nat) -> list JS.double -> Model.
Variable predict : Model -> JS.num * nat -> F.

Lemma filter_is_fit_predict (inp : Z -> JS.num * nat) (l : list Z) :
  List.filter is_fit (map (fun i => EvPredict (inp i)) l) = [].
Proof. induction l as [|a l IH]; [reflexivity|exact IH]. Qed.

Lemma filter_is_alert_predict (inp : Z -> JS.num * nat) (l : list Z) :
  List.filter is_alert (map (fun i => EvPredict (inp i)) l) = [].
Proof. induction l as [|a l IH]; [reflexivity|exact IH]. Qed.

(** On a non-empty product, modeling returns, trains exactly one model
    and raises no notification. *)
Lemma predictSalesForProduct_runs months productData :
  productData <> [] ->
  exists t preds,
    predictSalesForProduct fit predict months productData = (t, Some preds) /\
    length (List.filter is_fit t) = 1%nat /\
    List.filter is_alert t = [].
Proof.
  intros Hne. destruct (last_is_Some productData Hne) as [e He].
  rewrite (predictSalesForProduct_nonempty fit predict months _ _ He).
  do 2 eexists. split; [reflexivity|]. split.
  - cbn [List.filter is_fit]. cbn [length]. f_equal.
    rewrite (filter_is_fit_predict
               (fun i => (JS.add (month e) (JS.Fin i), length productData))).
    reflexivity.
  - cbn [List.filter is_alert].
    apply (filter_is_alert_predict
             (fun i => (JS.add (month e) (JS.Fin i), length productData))).
Qed.

(** One turn of the loop on a product without data: notify, go on. *)
Lemma predictLoop_skip months data p rest acc :
  filter_product data p = [] ->
  predictLoop fit predict months data (p :: rest) acc =
  ( EvAlert (no_data_msg p) :: fst (predictLoop fit predict months data rest acc),
    snd (predictLoop fit predict months data rest acc) ).
Proof.
  intros He. cbn [predictLoop]. rewrite He. cbn [length Nat.eqb].
  unfold bind, emit.
  destruct (predictLoop fit predict months data rest acc) as [t r]. reflexivity.
Qed.

(** One turn of the loop on a product with data: train, store, go on. *)
Lemma predictLoop_train months data p rest acc :
  filter_product data p <> [] ->
  exists t preds,
    predictSalesForProduct fit predict months (filter_product data p) = (t, Some preds) /\
    length (List.filter is_fit t) = 1%nat /\
    List.filter is_alert t = [] /\
    predictLoop fit predict months data (p :: rest) acc =
    ( t ++ fst (predictLoop fit predict months data rest (Obj.set p preds acc)),
      snd (predictLoop fit predict months data rest (Obj.set p preds acc)) ).
Proof.
  intros Hne.
  destruct (predictSalesForProduct_runs months _ Hne) as (t & preds & Hrun & Hfit & Hal).
  exists t, preds. repeat (split; [assumption|]).
  cbn [predictLoop]. rewrite Hrun.
  destruct (filter_product data p) as [|x l]; [congruence|].
  cbn [length Nat.eqb]. unfold bind.
  destruct (predictLoop fit predict months data rest (Obj.set p preds acc)) as [t' r].
  reflexivity.
Qed.

(** The loop always runs to the end.  A name that is not a product
    with data keeps its own property and, for [__proto__], the
    prototype; an array read under such a name is still read
    afterwards; every product with data is read back as an array; and
    the keys stay among the old keys and the products. *)
Lemma predictLoop_result months data products acc :
  exists tbl,
    snd (predictLoop fit predict months data products acc) = Some tbl /\
    (forall q, q ∉ products \/ filter_product data q = [] ->
       Obj.own tbl !! q = Obj.own acc !! q /\
       (q = "__proto__"%string -> Obj.proto tbl = Obj.proto acc) /\
       (forall b, Obj.get acc q = Obj.Array b -> Obj.get tbl q = Obj.Array b)) /\
    (forall q, q ∈ products -> filter_product data q <> [] ->
       exists preds, Obj.get tbl q = Obj.Array preds) /\
    Obj.keys tbl ⊆ Obj.keys acc ∪ list_to_set products.
Proof.
  revert acc. induction products as [|p rest IH]; intros acc.
  - exists acc. cbn. split; [reflexivity|]. split; [auto|].
    split; [|apply union_subseteq_l]. intros q Hq. inversion Hq.
  - destruct (list_eq_nil_dec (filter_product data p)) as [He | Hne].
    + rewrite (predictLoop_skip _ _ _ _ _ He). cbn [snd].
      destruct (IH acc) as (tbl & Hres & Hsame & Hsome & Hdom).
      exists tbl. split; [exact Hres|]. split; [|split].
      * intros q [Hq | Hq]; apply Hsame; [left | now right].
        apply not_elem_of_cons in Hq. tauto.
      * intros q Hq Hne. apply Hsome; [|exact Hne].
        apply elem_of_cons in Hq as [-> | Hq]; [congruence | exact Hq].
      * etrans; [exact Hdom|]. apply union_mono_l.
        rewrite list_to_set_cons. apply union_subseteq_r.
    + destruct (predictLoop_train months data p rest acc Hne)
        as (t & preds & _ & _ & _ & Hstep).
      rewrite Hstep. cbn [snd].
      destruct (IH (Obj.set p preds acc)) as (tbl & Hres & Hsame & Hsome & Hdom).
      exists tbl. split; [exact Hres|]. split; [|split].
      * intros q Hq. assert (Hqp : p <> q).
        { intros ->. destruct Hq as [Hq | Hq]; [|congruence].
          apply Hq. left. }
        assert (Hq' : q ∉ rest \/ filter_product data q = []).
        { destruct Hq as [Hq | Hq]; [left | now right].
          apply not_elem_of_cons in Hq. tauto. }
        destruct (Hsame q Hq') as (Hown & Hproto & Harr).
        split; [|split].
        -- rewrite Hown. now apply own_set_ne.
        -- intros ->. rewrite Hproto by reflexivity. now apply proto_set_ne.
        -- intros b Hb. apply Harr. now apply get_set_ne.
      * intros q Hq Hqne. destruct (decide (q ∈ rest)) as [Hin | Hnin].
        -- now apply Hsome.
        -- apply elem_of_cons in Hq as [-> | Hq]; [|contradiction].
           exists preds. apply (Hsame p); [now left | apply get_set_eq].
      * etrans; [exact Hdom|]. unfold Obj.keys.
        rewrite list_to_set_cons.
        pose proof (own_set_dom acc p preds) as Hd.
        intros x Hx. apply elem_of_union in Hx as [Hx | Hx].
        -- apply Hd in Hx. apply elem_of_union in Hx as [Hx | Hx].
           ++ apply elem_of_union_l, Hx.
           ++ apply elem_of_union_r, elem_of_union_l, Hx.
        -- apply elem_of_union_r, elem_of_union_r, Hx.
Qed.

(** The events of the loop: one notification per product without data,
    one trained model per product with data. *)
Lemma predictLoop_trace months data products acc :
  (forall p, p ∈ products -> filter_product data p = [] ->
     EvAlert (no_data_msg p) ∈ fst (predictLoop fit predict months data products acc)) /\
  length (List.filter is_fit (fst (predictLoop fit predict months data products acc)))
    = length (List.filter
                (fun q => negb (length (filter_product data q) =? 0)%nat) products) /\
  length (List.filter is_alert (fst (predictLoop fit predict months data products acc)))
    = length (List.filter
                (fun q => (length (filter_product data q) =? 0)%nat) products).
Proof.
  revert acc. induction products as [|p rest IH]; intros acc.
  - cbn. split; [|split; reflexivity]. intros p Hp. inversion Hp.
  - destruct (list_eq_nil_dec (filter_product data p)) as [He | Hne].
    + rewrite (predictLoop_skip _ _ _ _ _ He). cbn [fst].
      destruct (IH acc) as (Hal & Hfit & Hcnt).
      cbn [List.filter is_fit is_alert]. rewrite He. cbn [length Nat.eqb negb].
      split; [|split; [exact Hfit | now rewrite Hcnt]].
      intros q Hq Hqe. apply elem_of_cons in Hq as [-> | Hq]; [left|right; auto].
    + destruct (predictLoop_train months data p rest acc Hne)
        as (t & preds & _ & Hfit1 & Hal1 & Hstep).
      rewrite Hstep. cbn [fst].
      destruct (IH (Obj.set p preds acc)) as (Hal & Hfit & Hcnt).
      rewrite !List.filter_app, !length_app, Hfit1, Hal1, Hfit, Hcnt.
      cbn [List.filter].
      destruct (filter_product data p) as [|x l] eqn:Hp; [congruence|].
      cbn [length Nat.eqb negb]. split; [|split; reflexivity].
      intros q Hq Hqe. apply elem_of_cons in Hq as [-> | Hq]; [congruence|].
      apply elem_of_app. right. auto.
Qed.

(** C6: in the loop of the predict action, a product whose filtered
    data is empty is skipped: the loop still runs to the end, the
    notification for that product is raised, nothing is stored for it
    (neither an own property nor, for [__proto__], a prototype), models
    are trained only for the products that have data (one each), and
    each of those is read back from the table as an array of
    predictions. *)
Theorem predictLoop_skips_empty_product (months : Z) (data : list SalesPoint)
    (products : list string) (acc : Obj.t (PredictionPoint F))
    (p : string) :
  p ∈ products ->
  filter_product data p = [] ->
  exists tbl,
    result (predictLoop fit predict months data products acc) = Some tbl /\
    EvAlert (no_data_msg p) ∈ trace (predictLoop fit predict months data products acc) /\
    Obj.own tbl !! p = Obj.own acc !! p /\
    (p = "__proto__"%string -> Obj.proto tbl = Obj.proto acc) /\
    length (List.filter is_fit (trace (predictLoop fit predict months data products acc)))
      = length (List.filter
                  (fun q => negb (length (filter_product data q) =? 0)%nat) products) /\
    (forall q, q ∈ products -> filter_product data q <> [] ->
       exists preds, Obj.get tbl q = Obj.Array preds).
Proof.
  intros Hin Hempty.
  destruct (predictLoop_result months data products acc)
    as (tbl & Hres & Hsame & Hsome & _).
  destruct (predictLoop_trace months data products acc) as (Hal & Hfit & _).
  destruct (Hsame p (or_intror Hempty)) as (Hown & Hproto & _).
  exists tbl. unfold result, trace. auto 10.
Qed.

Lemma unique_from_elem seen l x : x ∈ unique_from seen l -> x ∈ l.
Proof.
  revert seen. induction l as [|y l IH]; intros seen Hx; [exact Hx|].
  cbn [unique_from] in Hx. destruct (existsb (String.eqb y) seen).
  - right. eauto.
  - apply elem_of_cons in Hx as [-> | Hx]; [left | right; eauto].
Qed.

(** Every product drawn from the data set has data. *)
Lemma unique_product_has_data (data : list SalesPoint) p :
  p ∈ unique (map product data) -> filter_product data p <> [].
Proof.
  intros Hp. apply unique_from_elem, list_elem_of_In, in_map_iff in Hp
    as (entry & Hprod & Hentry).
  assert (Hin : In entry (filter_product data p)).
  { apply filter_In. split; [exact Hentry|]. now apply String.eqb_eq. }
  intros He. rewrite He in Hin. exact Hin.
Qed.

Lemma filter_none {A : Type} (f : A -> bool) (l : list A) :
  (forall x, In x l -> f x = false) -> List.filter f l = [].
Proof.
  induction l as [|a l IH]; intros H; [reflexivity|]. simpl.
  rewrite (H a) by now left. apply IH. intros x Hx. apply H. now right.
Qed.

(** In [predictSales] the products come from the data set itself, so
    the notification for an empty product is never raised there. *)
Lemma predictSales_no_alert (st : State F) :
  List.filter is_alert (fst (predictSales fit predict st)) = [].
Proof.
  unfold predictSales. destruct (months st <=? 0); [reflexivity|].
  destruct (predictLoop_trace (months st) (data st)
              (unique (map product (data st))) Obj.empty) as (_ & _ & Hcnt).
  assert (Hnone : List.filter
            (fun q => (length (filter_product (data st) q) =? 0)%nat)
            (unique (map product (data st))) = []).
  { apply filter_none. intros q Hq.
    apply list_elem_of_In, unique_product_has_data in Hq.
    destruct (filter_product (data st) q); [congruence|reflexivity]. }
  rewrite Hnone in Hcnt.
  destruct (predictLoop fit predict (months st) (data st)
              (unique (map product (data st))) Obj.empty) as [t [tbl|]];
    cbn [fst] in *; now apply length_zero_iff_nil.
Qed.

(** C9: after a predict action that went through (positive horizon),
    every key of the prediction table is the name of a product of the
    data set the action ran on; the action has cleared [loading]. *)
Theorem predictSales_keys_are_products (st : State F) :
  0 < months st ->
  Obj.keys (predictions (snd (predictSales fit predict st)))
    ⊆ (list_to_set (map product (data st)) : gset string) /\
  loading (snd (predictSales fit predict st)) = false.
Proof.
  intros Hpos. unfold predictSales.
  assert (Hle : (months st <=? 0) = false) by (apply Z.leb_gt; lia).
  rewrite Hle.
  destruct (predictLoop_result (months st) (data st)
              (unique (map product (data st))) Obj.empty) as (tbl & Hres & _ & _ & Hdom).
  destruct (predictLoop fit predict (months st) (data st)
              (unique (map product (data st))) Obj.empty) as [t r].
  cbn [snd] in Hres. subst r. cbn [snd predictions setLoading setPredictions loading].
  split; [|reflexivity].
  intros q Hq. apply Hdom in Hq. apply elem_of_union in Hq as [Hq | Hq].
  - unfold Obj.keys, Obj.empty in Hq. cbn [Obj.own] in Hq.
    rewrite dom_empty_L in Hq. now apply not_elem_of_empty in Hq.
  - apply elem_of_list_to_set in Hq. apply elem_of_list_to_set.
    eapply unique_from_elem. exact Hq.
Qed.

End PredictAction.

Lemma predictLoop_skips_empty_product_witness :
  exists tbl,
    result (predictLoop echo_fit echo_predict 2 (preprocessData sample_rows)
              ["Widget"; "Gadget"]%string Obj.empty) = Some tbl /\
    EvAlert (no_data_msg "Gadget")
      ∈ trace (predictLoop echo_fit echo_predict 2 (preprocessData sample_rows)
                 ["Widget"; "Gadget"]%string Obj.empty) /\
    Obj.own tbl !! "Gadget"%string
      = Obj.own (Obj.empty : Obj.t (PredictionPoint (JS.num * nat))) !! "Gadget"%string /\
    ("Gadget"%string = "__proto__"%string ->
     Obj.proto tbl = Obj.proto (Obj.empty : Obj.t (PredictionPoint (JS.num * nat)))) /\
    length (List.filter is_fit
              (trace (predictLoop echo_fit echo_predict 2 (preprocessData sample_rows)
                        ["Widget"; "Gadget"]%string Obj.empty)))
      = length (List.filter
                  (fun q => negb (length (filter_product (preprocessData sample_rows) q) =? 0)%nat)
                  ["Widget"; "Gadget"]%string) /\
    (forall q, q ∈ ["Widget"; "Gadget"]%string ->
       filter_product (preprocessData sample_rows) q <> [] ->
       exists preds, Obj.get tbl q = Obj.Array preds).
Proof.
  apply (predictLoop_skips_empty_product echo_fit echo_predict 2
           (preprocessData sample_rows) ["Widget"; "Gadget"]%string Obj.empty
           "Gadget"%string).
  - right. left.
  - reflexivity.
Defined.

Lemma predictSales_keys_are_products_witness :
  Obj.keys (predictions (snd (predictSales echo_fit echo_predict sample_session)))
    ⊆ (list_to_set (map product (data sample_session)) : gset string) /\
  loading (snd (predictSales echo_fit echo_predict sample_session)) = false.
Proof.
  apply (predictSales_keys_are_products echo_fit echo_predict sample_session).
  reflexivity.
Defined.

(** The specification's end-to-end example: two rows of [Widget] and a
    horizon of 2 give predictions for months 3 and 4. *)
Example predictSales_sample :
  Obj.get (predictions (snd (predictSales echo_fit echo_predict sample_session)))
    "Widget"
  = Obj.Array [ {| pred_month := JS.Fin 3; predicted := (JS.Fin 3, 2%nat) |};
                {| pred_month := JS.Fin 4; predicted := (JS.Fin 4, 2%nat) |} ].
Proof. vm_compute. reflexivity. Qed.

(** ** Presentation *)

Section ChartMerge.

Context {F : Type}.

Lemma filter_all {A : Type} (f : A -> bool) (l : list A) :
  (forall x, In x l -> f x = true) -> List.filter f l = l.
Proof.
  induction l as [|a l IH]; intros H; [reflexivity|]. simpl.
  rewrite (H a) by now left. f_equal. apply IH. intros x Hx. apply H. now right.
Qed.

Lemma mapM_total {A B : Type} (f : A -> B) (l : list A) :
  mapM (fun x => Some (f x)) l = Some (map f l).
Proof.
  induction l as [|a l IH]; [reflexivity|].
  cbn [mapM]. rewrite IH. reflexivity.
Qed.

(** The chart when the table gives an array or nothing for the
    product: the actual entries, then one entry for every prediction;
    and the TypeError when it gives something else. *)
Lemma renderChartData_unfold (data : list SalesPoint)
    (predictions : Obj.t (PredictionPoint F)) (product : string) :
  renderChartData data predictions product =
  match Obj.get predictions product with
  | Obj.Other _ => None
  | _ =>
      Some
        (map (fun entry =>
                {| chart_month := month entry;
                   actual := Some (quantity entry);
                   chart_predicted :=
                     predicted <$>
                       List.find (fun pred => JS.strict_eq (pred_month pred) (month entry))
                                 (Obj.array_of (Obj.get predictions product)) |})
             (filter_product data product)
         ++ map (fun pred =>
                   {| chart_month := pred_month pred;
                      actual := None;
                      chart_predicted := Some (predicted pred) |})
                (Obj.array_of (Obj.get predictions product)))
  end.
Proof.
  unfold renderChartData.
  destruct (Obj.get predictions product) as [|preds|b];
    cbn [Obj.optional_call Obj.array_of mbind option_bind].
  - rewrite (mapM_total
               (fun entry => {| chart_month := month entry;
                                actual := Some (quantity entry);
                                chart_predicted := None |})).
    reflexivity.
  - rewrite (mapM_total
               (fun entry =>
                  {| chart_month := month entry;
                     actual := Some (quantity entry);
                     chart_predicted :=
                       match List.find (fun pred => JS.strict_eq (pred_month pred) (month entry))
                                       preds with
                       | Some p => Some (predicted p)
                       | None => None
                       end |})).
    reflexivity.
  - destruct (mapM _ _); reflexivity.
Qed.

(** C1, amended: when the table gives an array or nothing under the
    name of the product (no value inherited from a prototype), the
    chart of the product has one entry per actual sales point, in
    data-set order, with the prediction of the first prediction point
    of the same month or none, followed by one prediction-only entry
    for every prediction point of the product, in table order, whether
    or not its month already has an actual entry.  When no prediction
    month has an actual entry, this is the merge the specification
    describes. *)
Theorem renderChartData_merge (data : list SalesPoint)
    (predictions : Obj.t (PredictionPoint F)) (product : string) :
  (forall b, Obj.get predictions product <> Obj.Other b) ->
  exists chart,
    renderChartData data predictions product = Some chart /\
    length chart
      = (length (filter_product data product)
         + length (Obj.array_of (Obj.get predictions product)))%nat /\
    (forall i entry,
       filter_product data product !! i = Some entry ->
       chart !! i =
         Some {| chart_month := month entry;
                 actual := Some (quantity entry);
                 chart_predicted :=
                   predicted <$>
                     List.find (fun pred => JS.strict_eq (pred_month pred) (month entry))
                               (Obj.array_of (Obj.get predictions product)) |}) /\
    (forall j pred,
       Obj.array_of (Obj.get predictions product) !! j = Some pred ->
       chart !! (length (filter_product data product) + j)%nat =
         Some {| chart_month := pred_month pred;
                 actual := None;
                 chart_predicted := Some (predicted pred) |}) /\
    ((forall pred entry,
        pred ∈ Obj.array_of (Obj.get predictions product) ->
        entry ∈ filter_product data product ->
        JS.strict_eq (pred_month pred) (month entry) = false) ->
     chart = chartMerge_spec data predictions product).
Proof.
  intros Hplain. rewrite renderChartData_unfold. unfold chartMerge_spec.
  assert (Hsome :
    forall X (c : X),
      match Obj.get predictions product with
      | Obj.Other _ => None
      | _ => Some c
      end = Some c).
  { intros X c. destruct (Obj.get predictions product) as [|a|b] eqn:Hget;
      [reflexivity | reflexivity | now destruct (Hplain b)]. }
  rewrite Hsome. set (preds := Obj.array_of (Obj.get predictions product)).
  eexists. split; [reflexivity|]. split; [|split; [|split]].
  - now rewrite length_app, !length_map.
  - intros i entry Hi. rewrite lookup_app_l.
    + change (map ?f ?l !! i) with ((f <$> l) !! i).
      rewrite list_lookup_fmap, Hi. reflexivity.
    + rewrite length_map. eapply lookup_lt_Some, Hi.
  - intros j pred Hj. rewrite lookup_app_r by (rewrite length_map; lia).
    rewrite length_map.
    replace (length (filter_product data product) + j
             - length (filter_product data product))%nat with j by lia.
    change (map ?f ?l !! j) with ((f <$> l) !! j).
    rewrite list_lookup_fmap, Hj. reflexivity.
  - intros Hfree. f_equal.
    rewrite filter_all; [reflexivity|].
    intros pred Hpred. apply negb_true_iff.
    destruct (existsb _ _) eqn:Hex; [|reflexivity].
    apply existsb_exists in Hex as (entry & Hentry & Heq).
    rewrite (Hfree pred entry) in Heq; [discriminate| |];
      now apply list_elem_of_In.
Qed.

End ChartMerge.

Lemma renderChartData_merge_witness :
  exists chart,
    renderChartData (data unsorted_session) (predictions unsorted_session) "Widget"
      = Some chart /\
    length chart
      = (length (filter_product (data unsorted_session) "Widget")
         + length (Obj.array_of (Obj.get (predictions unsorted_session) "Widget")))%nat /\
    (forall i entry,
       filter_product (data unsorted_session) "Widget" !! i = Some entry ->
       chart !! i =
         Some {| chart_month := month entry;
                 actual := Some (quantity entry);
                 chart_predicted :=
                   predicted <$>
                     List.find (fun pred => JS.strict_eq (pred_month pred) (month entry))
                               (Obj.array_of (Obj.get (predictions unsorted_session) "Widget")) |}) /\
    (forall j pred,
       Obj.array_of (Obj.get (predictions unsorted_session) "Widget") !! j = Some pred ->
       chart !! (length (filter_product (data unsorted_session) "Widget") + j)%nat =
         Some {| chart_month := pred_month pred;
                 actual := None;
                 chart_predicted := Some (predicted pred) |}) /\
    ((forall pred entry,
        pred ∈ Obj.array_of (Obj.get (predictions unsorted_session) "Widget") ->
        entry ∈ filter_product (data unsorted_session) "Widget" ->
        JS.strict_eq (pred_month pred) (month entry) = false) ->
     chart = chartMerge_spec (data unsorted_session) (predictions unsorted_session) "Widget").
Proof.
  apply (renderChartData_merge (data unsorted_session) (predictions unsorted_session)
           "Widget").
  intros b. vm_compute. discriminate.
Defined.

Example renderChartData_unsorted :
  map (fun e => (chart_month e, actual e))
    <$> renderChartData (data unsorted_session) (predictions unsorted_session) "Widget"
  = Some [ (JS.Fin 5, Some (JS.number 10)); (JS.Fin 1, Some (JS.number 15));
           (JS.Fin 2, None); (JS.Fin 3, None); (JS.Fin 4, None);
           (JS.Fin 5, None); (JS.Fin 6, None); (JS.Fin 7, None) ].
Proof. vm_compute. reflexivity. Qed.

(** C1, as stated, fails: with the rows of months 5 and 1 (in that
    order) the predictions run over months 2 to 7, and the chart shows
    month 5 twice, once with its actual value and once more as a
    prediction-only entry; the merge the specification describes has
    no such second entry. *)
Lemma renderChartData_repeats_covered_month :
  exists chart,
    renderChartData (data unsorted_session) (predictions unsorted_session) "Widget"
      = Some chart /\
    {| chart_month := JS.Fin 5; actual := Some (JS.number 10);
       chart_predicted := Some (JS.Fin 5, 2%nat) |} ∈ chart /\
    {| chart_month := JS.Fin 5; actual := None;
       chart_predicted := Some (JS.Fin 5, 2%nat) |} ∈ chart /\
    chart <> chartMerge_spec (data unsorted_session) (predictions unsorted_session) "Widget".
Proof.
  eexists. split; [vm_compute; reflexivity|]. split; [|split].
  - repeat constructor.
  - repeat constructor.
  - intros H. apply (f_equal length) in H. vm_compute in H. discriminate H.
Qed.

(** A month that occurs twice in the data of a product occurs twice in
    its chart. *)
Example renderChartData_repeated_month :
  map (fun e => (chart_month e, actual e))
    <$> renderChartData
          (preprocessData [row "2023-01-05" "Widget" "10"; row "2023-01-20" "Widget" "4"])
          (Obj.empty : Obj.t (PredictionPoint unit)) "Widget"
  = Some [ (JS.Fin 1, Some (JS.number 10)); (JS.Fin 1, Some (JS.number 4)) ].
Proof. vm_compute. reflexivity. Qed.

(** * Further properties of the code *)

(** ** Distinct products *)

Lemma existsb_eqb_elem (x : string) (seen : list string) :
  existsb (String.eqb x) seen = true <-> x ∈ seen.
Proof.
  rewrite existsb_exists. split.
  - intros (y & Hy & Heq). apply String.eqb_eq in Heq. subst.
    now apply list_elem_of_In.
  - intros Hx. exists x. split; [now apply list_elem_of_In | apply String.eqb_refl].
Qed.

Lemma unique_from_spec seen l x :
  x ∈ unique_from seen l <-> x ∈ l /\ x ∉ seen.
Proof.
  revert seen. induction l as [|y l IH]; intros seen; cbn [unique_from].
  - split; [intros H; inversion H | intros [H _]; inversion H].
  - destruct (existsb (String.eqb y) seen) eqn:Hy.
    + apply existsb_eqb_elem in Hy. rewrite IH, elem_of_cons.
      split; [tauto|]. intros [[-> | Hx] Hn]; [contradiction | tauto].
    + assert (Hy' : y ∉ seen).
      { intros Hin. apply existsb_eqb_elem in Hin. congruence. }
      rewrite !elem_of_cons, IH, not_elem_of_cons. split.
      * intros [-> | (Hx & Hne & Hn)]; tauto.
      * intros [[-> | Hx] Hn]; [now left|].
        destruct (decide (x = y)) as [-> | Hne]; [now left | right; tauto].
Qed.

Lemma unique_from_NoDup seen l : NoDup (unique_from seen l).
Proof.
  revert seen. induction l as [|y l IH]; intros seen; cbn [unique_from].
  - constructor.
  - destruct (existsb (String.eqb y) seen); [apply IH|].
    constructor; [|apply IH].
    rewrite unique_from_spec, not_elem_of_cons. tauto.
Qed.

Lemma unique_from_sublist seen l : unique_from seen l `sublist_of` l.
Proof.
  revert seen. induction l as [|y l IH]; intros seen; cbn [unique_from].
  - constructor.
  - destruct (existsb (String.eqb y) seen).
    + apply sublist_cons, IH.
    + apply sublist_skip, IH.
Qed.

(** X1: the list of distinct names (used for the training loop and for
    the selector) has no repetition, has exactly the names of the input
    and keeps them in the order of the input. *)
Theorem unique_distinct_same_names (l : list string) :
  NoDup (unique l) /\
  (forall x, x ∈ unique l <-> x ∈ l) /\
  unique l `sublist_of` l.
Proof.
  split; [apply unique_from_NoDup|]. split; [|apply unique_from_sublist].
  intros x. unfold unique. rewrite unique_from_spec. split; [tauto|].
  intros Hx. split; [exact Hx|]. intros H. inversion H.
Qed.

(** ** Training data *)

(** X2: [prepareData] gives as many feature rows and labels as there
    are sales points; the feature row at position [i] is the month of
    the [i]-th point paired with [i] itself, and the label at position
    [i] is the quantity of that point. *)
Theorem prepareData_rows (productData : list SalesPoint) :
  length (fst (prepareData productData)) = length productData /\
  length (snd (prepareData productData)) = length productData /\
  (forall i entry,
     productData !! i = Some entry ->
     fst (prepareData productData) !! i = Some (month entry, i) /\
     snd (prepareData productData) !! i = Some (quantity entry)).
Proof.
  unfold prepareData. cbn [fst snd]. split; [|split].
  - now rewrite length_imap, length_map.
  - apply length_map.
  - intros i entry Hi. split.
    + rewrite list_lookup_imap.
      change (map month productData !! i) with ((month <$> productData) !! i).
      now rewrite list_lookup_fmap, Hi.
    + change (map quantity productData !! i) with ((quantity <$> productData) !! i).
      now rewrite list_lookup_fmap, Hi.
Qed.

Lemma prepareData_index_bound (productData : list SalesPoint) (x : JS.num * nat) :
  x ∈ fst (prepareData productData) -> (snd x < length productData)%nat.
Proof.
  unfold prepareData. cbn [fst]. intros Hx.
  apply list_elem_of_lookup in Hx as [i Hi].
  rewrite list_lookup_imap in Hi.
  destruct (map month productData !! i) as [m|] eqn:Hm; [|discriminate].
  injection Hi as <-. cbn [snd].
  apply lookup_lt_Some in Hm. now rewrite length_map in Hm.
Qed.

Section TrainingRows.

Context {Model F : Type}.
Variable fit : list (JS.num * nat) -> list JS.double -> Model.
Variable predict : Model -> JS.num * nat -> F.

(** X3: within one run of [predictSalesForProduct] the model is trained
    once, on rows whose second component runs over the positions
    [0 .. n-1], and is then asked only about rows whose second
    component is [n]: no input of an inference is a row of the training
    set. *)
Theorem inference_rows_outside_training (months : Z)
    (productData : list SalesPoint) (xs : list (JS.num * nat))
    (ys : list JS.double) (input : JS.num * nat) :
  productData <> [] ->
  EvFit xs ys ∈ trace (predictSalesForProduct fit predict months productData) ->
  EvPredict input ∈ trace (predictSalesForProduct fit predict months productData) ->
  xs = fst (prepareData productData) /\
  ys = snd (prepareData productData) /\
  (forall x, x ∈ xs -> (snd x < length productData)%nat) /\
  snd input = length productData /\
  input ∉ xs.
Proof.
  intros Hne Hfit Hpred.
  destruct (last_is_Some productData Hne) as [e He].
  rewrite (predictSalesForProduct_nonempty fit predict months _ _ He) in Hfit, Hpred.
  unfold trace in *. cbn [fst] in *.
  apply elem_of_cons in Hfit as [Hfit | Hfit].
  2:{ apply list_elem_of_In, in_map_iff in Hfit as (i & Hi & _). discriminate. }
  injection Hfit as -> ->.
  apply elem_of_cons in Hpred as [Hpred | Hpred]; [discriminate|].
  apply list_elem_of_In, in_map_iff in Hpred as (i & Hi & _).
  injection Hi as <-. cbn [snd].
  split; [reflexivity|]. split; [reflexivity|].
  split; [apply prepareData_index_bound|]. split; [reflexivity|].
  intros Hin. apply prepareData_index_bound in Hin. cbn [snd] in Hin. lia.
Qed.

End TrainingRows.

Lemma inference_rows_outside_training_witness :
  [(JS.Fin 1, 0%nat); (JS.Fin 2, 1%nat)] = fst (prepareData (preprocessData sample_rows)) /\
  [JS.number 10; JS.number 15] = snd (prepareData (preprocessData sample_rows)) /\
  (forall x, x ∈ [(JS.Fin 1, 0%nat); (JS.Fin 2, 1%nat)] ->
     (snd x < length (preprocessData sample_rows))%nat) /\
  snd (JS.Fin 3, 2%nat) = length (preprocessData sample_rows) /\
  (JS.Fin 3, 2%nat) ∉ [(JS.Fin 1, 0%nat); (JS.Fin 2, 1%nat)].
Proof.
  apply (inference_rows_outside_training echo_fit echo_predict 2
           (preprocessData sample_rows)
           [(JS.Fin 1, 0%nat); (JS.Fin 2, 1%nat)]
           [JS.number 10; JS.number 15] (JS.Fin 3, 2%nat)).
  - vm_compute. discriminate.
  - vm_compute. left.
  - vm_compute. right. left.
Defined.

(** ** The predict action, end to end *)

Section PredictTable.

Context {Model F : Type}.
Variable fit : list (JS.num * nat) -> list JS.double -> Model.
Variable predict : Model -> JS.num * nat -> F.

Lemma filter_product_nonempty (data : list SalesPoint) (q : string) :
  filter_product data q <> [] <-> q ∈ map product data.
Proof.
  split.
  - intros Hne. destruct (filter_product data q) as [|e l] eqn:Hf; [congruence|].
    assert (Hin : In e (filter_product data q)) by (rewrite Hf; now left).
    apply filter_In in Hin as [Hin Heq]. apply String.eqb_eq in Heq.
    apply list_elem_of_In, in_map_iff. eauto.
  - intros Hq. apply list_elem_of_In, in_map_iff in Hq as (e & Hp & He).
    assert (Hin : In e (filter_product data q)).
    { apply filter_In. split; [exact He|]. now apply String.eqb_eq. }
    intros Hf. rewrite Hf in Hin. exact Hin.
Qed.

(** What the loop leaves under the name of a product with data is the
    result of modelling that product's rows. *)
Lemma predictLoop_table months data products acc tbl q :
  snd (predictLoop fit predict months data products acc) = Some tbl ->
  q ∈ products -> filter_product data q <> [] ->
  exists preds,
    snd (predictSalesForProduct fit predict months (filter_product data q)) = Some preds /\
    Obj.get tbl q = Obj.Array preds.
Proof.
  revert acc. induction products as [|p rest IH]; intros acc Hres Hq Hne.
  - inversion Hq.
  - destruct (list_eq_nil_dec (filter_product data p)) as [He | Hpne].
    + rewrite (predictLoop_skip _ _ _ _ _ _ _ He) in Hres. cbn [snd] in Hres.
      apply (IH acc Hres); [|exact Hne].
      apply elem_of_cons in Hq as [-> | Hq]; [congruence | exact Hq].
    + destruct (predictLoop_train fit predict months data p rest acc Hpne)
        as (t & preds & Hrun & _ & _ & Hstep).
      rewrite Hstep in Hres. cbn [snd] in Hres.
      destruct (decide (q ∈ rest)) as [Hin | Hnin]; [now apply (IH _ Hres)|].
      apply elem_of_cons in Hq as [-> | Hq]; [|contradiction].
      destruct (predictLoop_result fit predict months data rest (Obj.set p preds acc))
        as (tbl' & Hres' & Hsame & _).
      assert (tbl' = tbl) by congruence. subst tbl'.
      exists preds. split; [now rewrite Hrun|].
      apply (Hsame p); [now left | apply get_set_eq].
Qed.

(** The loop gives a table no own property named [__proto__]. *)
Lemma predictLoop_no_own_proto months data products acc tbl :
  snd (predictLoop fit predict months data products acc) = Some tbl ->
  Obj.own acc !! "__proto__"%string = None ->
  Obj.own tbl !! "__proto__"%string = None.
Proof.
  revert acc. induction products as [|p rest IH]; intros acc Hres Hacc.
  - cbn in Hres. now injection Hres as <-.
  - destruct (list_eq_nil_dec (filter_product data p)) as [He | Hpne].
    + rewrite (predictLoop_skip _ _ _ _ _ _ _ He) in Hres. cbn [snd] in Hres. eauto.
    + destruct (predictLoop_train fit predict months data p rest acc Hpne)
        as (t & preds & _ & _ & _ & Hstep).
      rewrite Hstep in Hres. cbn [snd] in Hres.
      apply (IH _ Hres).
      destruct (decide (p = "__proto__"%string)) as [-> | Hp].
      * now rewrite (proj1 (own_set_proto acc preds Hacc)).
      * now rewrite own_set_ne.
Qed.

Lemma inference_inputs_app t1 t2 :
  inference_inputs (t1 ++ t2) = inference_inputs t1 ++ inference_inputs t2.
Proof. apply omap_app. Qed.

Lemma predictSalesForProduct_inference_count months productData :
  productData <> [] ->
  length (inference_inputs (fst (predictSalesForProduct fit predict months productData)))
  = Z.to_nat months.
Proof.
  intros Hne. destruct (last_is_Some productData Hne) as [e He].
  rewrite (predictSalesForProduct_nonempty fit predict months _ _ He). cbn [fst].
  change (inference_inputs (?x :: ?l)) with (inference_inputs l).
  rewrite (inference_inputs_predict
             (fun i => (JS.add (month e) (JS.Fin i), length productData))).
  now rewrite length_map, length_seqZ.
Qed.

Lemma predictLoop_inference_count months data products acc :
  length (inference_inputs (fst (predictLoop fit predict months data products acc)))
  = (length (List.filter
               (fun q => negb (length (filter_product data q) =? 0)%nat) products)
     * Z.to_nat months)%nat.
Proof.
  revert acc. induction products as [|p rest IH]; intros acc; [reflexivity|].
  destruct (list_eq_nil_dec (filter_product data p)) as [He | Hne].
  - rewrite (predictLoop_skip _ _ _ _ _ _ _ He). cbn [fst List.filter].
    rewrite He. cbn [length Nat.eqb negb].
    change (inference_inputs (?x :: ?l)) with (inference_inputs l). apply IH.
  - destruct (predictLoop_train fit predict months data p rest acc Hne)
      as (t & preds & Hrun & _ & _ & Hstep).
    rewrite Hstep. cbn [fst List.filter].
    rewrite inference_inputs_app, length_app, IH.
    pose proof (predictSalesForProduct_inference_count months _ Hne) as Hc.
    rewrite Hrun in Hc. cbn [fst] in Hc. rewrite Hc.
    destruct (filter_product data p); [congruence|].
    cbn [length Nat.eqb negb]. lia.
Qed.

(** With a positive horizon the predict action runs the loop over the
    distinct products and stores its table. *)
Lemma predictSales_positive (st : State F) :
  0 < months st ->
  exists tbl,
    snd (predictLoop fit predict (months st) (data st)
           (unique (map product (data st))) Obj.empty) = Some tbl /\
    predictSales fit predict st =
      ( fst (predictLoop fit predict (months st) (data st)
               (unique (map product (data st))) Obj.empty),
        setLoading _ false
          (setPredictions _ tbl (setLoading _ true (setMonthsError _ "" st))) ).
Proof.
  intros Hpos. unfold predictSales.
  assert (Hle : (months st <=? 0) = false) by (apply Z.leb_gt; lia).
  rewrite Hle.
  destruct (predictLoop_result fit predict (months st) (data st)
              (unique (map product (data st))) Obj.empty) as (tbl & Hres & _).
  exists tbl. split; [exact Hres|].
  destruct (predictLoop fit predict (months st) (data st)
              (unique (map product (data st))) Obj.empty) as [t r].
  cbn [snd] in Hres. subst r. reflexivity.
Qed.

(** The table after a predict action, name by name: a product with
    data is read back as the result of modelling its rows; a name
    without data has no own property; the table has no own property
    named [__proto__], and its prototype is replaced only when
    [__proto__] is a product. *)
Lemma predictSales_lookup (st : State F) (q : string) :
  0 < months st ->
  (filter_product (data st) q <> [] ->
   exists preds,
     snd (predictSalesForProduct fit predict (months st) (filter_product (data st) q))
       = Some preds /\
     Obj.get (predictions (snd (predictSales fit predict st))) q = Obj.Array preds) /\
  (filter_product (data st) q = [] ->
   Obj.own (predictions (snd (predictSales fit predict st))) !! q = None) /\
  Obj.own (predictions (snd (predictSales fit predict st))) !! "__proto__"%string = None /\
  (filter_product (data st) "__proto__" = [] ->
   Obj.proto (predictions (snd (predictSales fit predict st))) = None).
Proof.
  intros Hpos. destruct (predictSales_positive st Hpos) as (tbl & Hres & ->).
  cbn [snd setLoading setPredictions predictions].
  destruct (predictLoop_result fit predict (months st) (data st)
              (unique (map product (data st))) Obj.empty) as (tbl' & Hres' & Hsame & _).
  assert (tbl' = tbl) by congruence. subst tbl'.
  split; [|split; [|split]].
  - intros Hne. apply (predictLoop_table _ _ _ _ _ _ Hres); [|exact Hne].
    apply unique_from_spec. split; [now apply filter_product_nonempty|].
    intros H. inversion H.
  - intros He. destruct (Hsame q (or_intror He)) as (Hown & _). rewrite Hown.
    apply lookup_empty.
  - apply (predictLoop_no_own_proto _ _ _ _ _ Hres). apply lookup_empty.
  - intros He. destruct (Hsame "__proto__"%string (or_intror He)) as (_ & Hproto & _).
    now rewrite Hproto.
Qed.

(** Reading a name that has no own property in a table whose
    prototype was not replaced. *)
Lemma get_not_own (o : Obj.t (PredictionPoint F)) (q : string) :
  Obj.own o !! q = None -> Obj.proto o = None ->
  Obj.get o q =
    if Obj.mem_name q Obj.object_prototype_names then Obj.Other true
    else Obj.Undefined.
Proof.
  intros Hown Hproto. unfold Obj.get, Obj.inherited. rewrite Hown, Hproto.
  destruct (String.eqb q "__proto__") eqn:Hq; [|reflexivity].
  apply String.eqb_eq in Hq. now subst.
Qed.

(** An array read under a name other than [__proto__] is an own
    property. *)
Lemma get_array_own (o : Obj.t (PredictionPoint F)) (q : string) a :
  Obj.get o q = Obj.Array a -> q <> "__proto__"%string -> Obj.own o !! q = Some a.
Proof.
  intros Hget Hq. unfold Obj.get in Hget.
  destruct (Obj.own o !! q) as [b|]; [congruence|].
  apply String.eqb_neq in Hq. rewrite Hq in Hget. unfold Obj.inherited in Hget.
  destruct (Obj.proto o);
    repeat match type of Hget with
           | context [if ?c then _ else _] => destruct c
           | context [match Obj.index_of_key ?x with _ => _ end] =>
               destruct (Obj.index_of_key x)
           end; discriminate.
Qed.

End PredictTable.

Section PredictOutcome.

Context {Model F : Type}.
Variable fit : list (JS.num * nat) -> list JS.double -> Model.
Variable predict : Model -> JS.num * nat -> F.

(** X4: after a predict action with a positive horizon the keys of the
    table are exactly the product names of the data set other than
    [__proto__] (keys of an earlier table are gone; an assignment to
    [__proto__] creates no key), every product of the data set is read
    back as an array with as many points as the horizon, the error
    message is cleared, [loading] is off, and the data set, the horizon
    and the selection are as before. *)
Theorem predictSales_table_exact (st : State F) :
  0 < months st ->
  Obj.keys (predictions (snd (predictSales fit predict st)))
    = (list_to_set (map product (data st)) : gset string) ∖ {["__proto__"%string]} /\
  (forall q, q ∈ map product (data st) ->
     exists preds,
       Obj.get (predictions (snd (predictSales fit predict st))) q = Obj.Array preds /\
       length preds = Z.to_nat (months st)) /\
  data (snd (predictSales fit predict st)) = data st /\
  months (snd (predictSales fit predict st)) = months st /\
  selectedProduct (snd (predictSales fit predict st)) = selectedProduct st /\
  monthsError (snd (predictSales fit predict st)) = ""%string /\
  loading (snd (predictSales fit predict st)) = false.
Proof.
  intros Hpos. split; [|split].
  - apply set_eq. intros q. unfold Obj.keys.
    rewrite elem_of_dom, elem_of_difference, elem_of_list_to_set, elem_of_singleton.
    destruct (predictSales_lookup fit predict st q Hpos) as (Hsome & Hnone & Hnp & _).
    split.
    + intros [a Ha]. split.
      * apply filter_product_nonempty. intros He. rewrite (Hnone He) in Ha. discriminate.
      * intros ->. rewrite Hnp in Ha. discriminate.
    + intros [Hq Hne]. apply filter_product_nonempty in Hq.
      destruct (Hsome Hq) as (preds & _ & Hget).
      exists preds. now apply get_array_own.
  - intros q Hq. apply filter_product_nonempty in Hq.
    destruct (predictSales_lookup fit predict st q Hpos) as (Hsome & _).
    destruct (Hsome Hq) as (preds & Hrun & Hget). exists preds. split; [exact Hget|].
    destruct (last_is_Some _ Hq) as [e He].
    destruct (predictSalesForProduct_months fit predict (months st) _ _ He)
      as (preds' & Hres & Hlen & _).
    unfold result in Hres. congruence.
  - destruct (predictSales_positive fit predict st Hpos) as (tbl & _ & ->).
    repeat split.
Qed.

(** X5: the entry stored for a product is computed from the rows of
    that product alone: its months follow the month of the product's
    last row, and its values are the answers of the model fitted on the
    product's rows, asked with the number of those rows. *)
Theorem predictSales_entry_from_own_rows (st : State F) (q : string)
    (lastEntry : SalesPoint) :
  0 < months st ->
  last (filter_product (data st) q) = Some lastEntry ->
  Obj.get (predictions (snd (predictSales fit predict st))) q =
    Obj.Array
      (map (fun i =>
              {| pred_month := JS.add (month lastEntry) (JS.Fin i);
                 predicted :=
                   predict
                     (fit (fst (prepareData (filter_product (data st) q)))
                          (snd (prepareData (filter_product (data st) q))))
                     (JS.add (month lastEntry) (JS.Fin i),
                      length (filter_product (data st) q)) |})
           (seqZ 1 (months st))).
Proof.
  intros Hpos Hlast.
  destruct (predictSales_lookup fit predict st q Hpos) as (Hsome & _).
  destruct Hsome as (preds & Hrun & Hget).
  { intros He. rewrite He in Hlast. discriminate. }
  rewrite (predictSalesForProduct_nonempty fit predict _ _ _ Hlast) in Hrun.
  cbn [snd] in Hrun. injection Hrun as <-. exact Hget.
Qed.

(** X6: a predict action with a positive horizon trains one model per
    distinct product of the data set, asks each model once per month of
    the horizon, and raises no notification. *)
Theorem predictSales_event_counts (st : State F) :
  0 < months st ->
  length (List.filter is_fit (fst (predictSales fit predict st)))
    = length (unique (map product (data st))) /\
  length (inference_inputs (fst (predictSales fit predict st)))
    = (length (unique (map product (data st))) * Z.to_nat (months st))%nat /\
  List.filter is_alert (fst (predictSales fit predict st)) = [].
Proof.
  intros Hpos. destruct (predictSales_positive fit predict st Hpos) as (tbl & _ & Heq).
  assert (Hall : List.filter
            (fun q => negb (length (filter_product (data st) q) =? 0)%nat)
            (unique (map product (data st))) = unique (map product (data st))).
  { apply filter_all. intros q Hq.
    apply list_elem_of_In, unique_product_has_data in Hq.
    destruct (filter_product (data st) q); [congruence | reflexivity]. }
  split; [|split].
  - rewrite Heq. cbn [fst].
    destruct (predictLoop_trace fit predict (months st) (data st)
                (unique (map product (data st))) Obj.empty) as (_ & Hfit & _).
    now rewrite Hfit, Hall.
  - rewrite Heq. cbn [fst]. now rewrite predictLoop_inference_count, Hall.
  - apply predictSales_no_alert.
Qed.

(** X7: on an empty data set a predict action with a positive horizon
    trains nothing and leaves an empty table, whatever the table held
    before. *)
Theorem predictSales_empty_data (st : State F) :
  0 < months st ->
  data st = [] ->
  fst (predictSales fit predict st) = [] /\
  predictions (snd (predictSales fit predict st)) = Obj.empty.
Proof.
  intros Hpos Hdata. destruct (predictSales_positive fit predict st Hpos) as (tbl & Hres & ->).
  rewrite Hdata in *. cbn in Hres. injection Hres as <-. split; reflexivity.
Qed.

End PredictOutcome.

Lemma predictSales_table_exact_witness :
  Obj.keys (predictions (snd (predictSales echo_fit echo_predict sample_session)))
    = (list_to_set (map product (data sample_session)) : gset string)
      ∖ {["__proto__"%string]} /\
  (forall q, q ∈ map product (data sample_session) ->
     exists preds,
       Obj.get (predictions (snd (predictSales echo_fit echo_predict sample_session))) q
         = Obj.Array preds /\
       length preds = Z.to_nat (months sample_session)) /\
  data (snd (predictSales echo_fit echo_predict sample_session)) = data sample_session /\
  months (snd (predictSales echo_fit echo_predict sample_session)) = months sample_session /\
  selectedProduct (snd (predictSales echo_fit echo_predict sample_session))
    = selectedProduct sample_session /\
  monthsError (snd (predictSales echo_fit echo_predict sample_session)) = ""%string /\
  loading (snd (predictSales echo_fit echo_predict sample_session)) = false.
Proof.
  apply (predictSales_table_exact echo_fit echo_predict sample_session).
  reflexivity.
Defined.

Lemma predictSales_entry_from_own_rows_witness :
  Obj.get (predictions (snd (predictSales echo_fit echo_predict sample_session)))
    "Widget"
  = Obj.Array [ {| pred_month := JS.Fin 3; predicted := (JS.Fin 3, 2%nat) |};
                {| pred_month := JS.Fin 4; predicted := (JS.Fin 4, 2%nat) |} ].
Proof.
  exact (predictSales_entry_from_own_rows echo_fit echo_predict sample_session "Widget"
           {| month := JS.Fin 2; product := "Widget"; quantity := JS.number 15 |}
           eq_refl eq_refl).
Defined.

Lemma predictSales_event_counts_witness :
  length (List.filter is_fit (fst (predictSales echo_fit echo_predict sample_session)))
    = length (unique (map product (data sample_session))) /\
  length (inference_inputs (fst (predictSales echo_fit echo_predict sample_session)))
    = (length (unique (map product (data sample_session)))
       * Z.to_nat (months sample_session))%nat /\
  List.filter is_alert (fst (predictSales echo_fit echo_predict sample_session)) = [].
Proof.
  apply (predictSales_event_counts echo_fit echo_predict sample_session).
  reflexivity.
Defined.

Lemma predictSales_empty_data_witness :
  fst (predictSales echo_fit echo_predict (initial_state (JS.num * nat))) = [] /\
  predictions (snd (predictSales echo_fit echo_predict (initial_state (JS.num * nat))))
    = Obj.empty.
Proof.
  apply (predictSales_empty_data echo_fit echo_predict (initial_state (JS.num * nat)));
    reflexivity.
Defined.

(** ** Normalization, row by row *)

(** X8: every product name of the data set is a non-empty string that
    does not convert to a number; in particular it is not a decimal
    numeral. *)
Theorem preprocessData_product_names (rawData : list RawRecord) (sp : SalesPoint) :
  sp ∈ preprocessData rawData ->
  product sp <> ""%string /\
  JS.isNaN (product sp) = true /\
  ~ pure_number (product sp).
Proof.
  intros Hsp. apply preprocessData_elem in Hsp as (r & _ & Hk & Hn).
  apply keep_row_true in Hk as (c & d & t & Hc & Hd & Ht & Hc' & Hd' & Ht' & Hnan).
  rewrite (normalize_entry_kept r c d t) in Hn by assumption.
  destruct (length (JS.split "-" c) <? 2)%nat; [discriminate|].
  injection Hn as <-. cbn [product]. split; [exact Hd'|]. split; [exact Hnan|].
  intros Hp. apply pure_number_numeric in Hp. congruence.
Qed.

Lemma preprocessData_product_names_witness :
  product {| month := JS.Fin 1; product := "Widget"; quantity := JS.number 10 |}
    <> ""%string /\
  JS.isNaN (product {| month := JS.Fin 1; product := "Widget";
                       quantity := JS.number 10 |}) = true /\
  ~ pure_number (product {| month := JS.Fin 1; product := "Widget";
                            quantity := JS.number 10 |}).
Proof.
  apply (preprocessData_product_names sample_rows).
  vm_compute. left.
Defined.

Lemma split_chars_nonempty sep cs : JS.split_chars sep cs <> [].
Proof.
  destruct cs as [|c r]; cbn [JS.split_chars]; [discriminate|].
  destruct (Ascii.eqb c sep); [discriminate|].
  destruct (JS.split_chars sep r); discriminate.
Qed.

(** A string has two parts or more exactly when it holds the
    separator. *)
Lemma split_chars_two_parts sep cs :
  (2 <= length (JS.split_chars sep cs))%nat <-> sep ∈ cs.
Proof.
  induction cs as [|c r IH]; cbn [JS.split_chars].
  - cbn. split; [lia | intros H; inversion H].
  - destruct (Ascii.eqb c sep) eqn:Hc.
    + apply Ascii.eqb_eq in Hc. subst. split; [intros _; left|]. intros _.
      pose proof (split_chars_nonempty sep r).
      destruct (JS.split_chars sep r); [congruence | cbn; lia].
    + apply Ascii.eqb_neq in Hc. rewrite elem_of_cons.
      pose proof (split_chars_nonempty sep r) as Hne.
      destruct (JS.split_chars sep r) as [|p ps]; [congruence|].
      cbn [length] in *. rewrite IH. split; [tauto|].
      intros [-> | H]; [congruence | exact H].
Qed.

(** X9: a row that passed the filter is dropped by the second stage
    exactly when its date holds no [-]; such a row contributes
    nothing to the data set. *)
Theorem normalize_entry_drops_dashless (r : RawRecord) (c : string) :
  keep_row r = true ->
  created r = Some c ->
  (normalize_entry r = None <-> "-"%char ∉ list_ascii_of_string c) /\
  (preprocessData [r] = [] <-> "-"%char ∉ list_ascii_of_string c).
Proof.
  intros Hk Hc.
  assert (Hk' := Hk).
  apply keep_row_true in Hk' as (c' & d & t & Hc1 & Hd & Ht & Hc' & Hd' & Ht' & _).
  assert (c' = c) by congruence. subst c'.
  assert (Hn : normalize_entry r = None <-> "-"%char ∉ list_ascii_of_string c).
  { rewrite (normalize_entry_kept r c d t) by assumption.
    rewrite <- split_chars_two_parts. unfold JS.split. rewrite length_map.
    destruct (length (JS.split_chars "-" (list_ascii_of_string c)) <? 2)%nat eqn:Hlen.
    - apply Nat.ltb_lt in Hlen. split; [lia | reflexivity].
    - apply Nat.ltb_ge in Hlen. split; [discriminate | lia]. }
  split; [exact Hn|].
  rewrite preprocessData_single, Hk, <- Hn.
  destruct (normalize_entry r); split; congruence.
Qed.

Lemma normalize_entry_drops_dashless_witness :
  (normalize_entry (row "2023" "Widget" "15") = None
   <-> "-"%char ∉ list_ascii_of_string "2023") /\
  (preprocessData [row "2023" "Widget" "15"] = []
   <-> "-"%char ∉ list_ascii_of_string "2023").
Proof.
  apply (normalize_entry_drops_dashless (row "2023" "Widget" "15") "2023");
    reflexivity.
Defined.

Lemma trim_start_blank cs : forallb JS.is_ws cs = true -> JS.trim_start cs = [].
Proof.
  induction cs as [|c r IH]; [reflexivity|]. cbn [forallb JS.trim_start].
  intros H. apply andb_prop in H as [Hc Hr]. rewrite Hc. auto.
Qed.

(** X10: a row whose description is made of white space only is
    dropped although the field is not empty: such a description
    converts to the number 0. *)
Theorem blank_description_dropped (r : RawRecord) (d : string) :
  short_desc r = Some d ->
  forallb JS.is_ws (list_ascii_of_string d) = true ->
  JS.isNaN d = false /\ keep_row r = false /\ preprocessData [r] = [].
Proof.
  intros Hd Hws.
  assert (Hnan : JS.isNaN d = false).
  { unfold JS.isNaN, JS.is_numeric_string, JS.trim.
    rewrite (trim_start_blank _ Hws). reflexivity. }
  assert (Hk : keep_row r = false).
  { unfold keep_row. rewrite Hd, Hnan. apply andb_false_r. }
  split; [exact Hnan|]. split; [exact Hk|].
  rewrite preprocessData_single. now rewrite Hk.
Qed.

Lemma blank_description_dropped_witness :
  JS.isNaN "  " = false /\
  keep_row (row "2023-01-05" "  " "10") = false /\
  preprocessData [row "2023-01-05" "  " "10"] = [].
Proof.
  apply (blank_description_dropped (row "2023-01-05" "  " "10") "  "); reflexivity.
Defined.

(** ** Dates and quantities that are well formed *)

Lemma split_chars_no_sep sep y : sep ∉ y -> JS.split_chars sep y = [y].
Proof.
  induction y as [|c y IH]; intros Hy; [reflexivity|].
  apply not_elem_of_cons in Hy as [Hc Hy]. cbn [JS.split_chars].
  assert (Hne : Ascii.eqb c sep = false) by (apply Ascii.eqb_neq; congruence).
  rewrite Hne, (IH Hy). reflexivity.
Qed.

Lemma split_chars_prefix sep y rest :
  sep ∉ y -> JS.split_chars sep (y ++ sep :: rest) = y :: JS.split_chars sep rest.
Proof.
  induction y as [|c y IH]; intros Hy.
  - cbn [app JS.split_chars]. now rewrite Ascii.eqb_refl.
  - apply not_elem_of_cons in Hy as [Hc Hy].
    change ((c :: y) ++ sep :: rest) with (c :: (y ++ sep :: rest)).
    cbn [JS.split_chars].
    assert (Hne : Ascii.eqb c sep = false) by (apply Ascii.eqb_neq; congruence).
    rewrite Hne, (IH Hy). reflexivity.
Qed.

Lemma digits_no_minus m : forallb JS.is_digit m = true -> "-"%char ∉ m.
Proof.
  intros Hm Hin. rewrite forallb_forall in Hm.
  apply list_elem_of_In, Hm, digit_not_minus in Hin. discriminate.
Qed.

Lemma digit_val_nonneg c : JS.is_digit c = true -> 0 <= JS.digit_val c.
Proof.
  unfold JS.is_digit, JS.digit_val. intros H.
  apply andb_prop in H as [H _]. apply N.leb_le in H. lia.
Qed.

Lemma digits_value_nonneg ds : forallb JS.is_digit ds = true -> 0 <= JS.digits_value ds.
Proof.
  unfold JS.digits_value.
  assert (H : forall acc, 0 <= acc -> forallb JS.is_digit ds = true ->
              0 <= fold_left (fun a c => 10 * a + JS.digit_val c) ds acc).
  { induction ds as [|d ds IH]; intros acc Hacc Hds; [exact Hacc|].
    cbn [forallb fold_left] in *. apply andb_prop in Hds as [Hd Hds].
    apply IH; [|exact Hds]. pose proof (digit_val_nonneg d Hd). lia. }
  apply H. lia.
Qed.

(** [parseInt] on a string of digits gives their value. *)
Lemma parseInt_digits m :
  digit_string m ->
  JS.parseInt (string_of_list_ascii m) = JS.round_to_double (JS.digits_value m).
Proof.
  intros [Hne Hall]. unfold JS.parseInt.
  rewrite list_ascii_of_string_of_list_ascii.
  destruct m as [|c m]; [congruence|].
  assert (Hc : JS.is_digit c = true) by (cbn in Hall; now apply andb_prop in Hall).
  rewrite trim_start_id by now apply digit_not_ws.
  cbn [JS.scan_sign]. rewrite (digit_not_minus c Hc), (digit_not_plus c Hc).
  assert (Hsp : JS.span_digits (c :: m) = (c :: m, [])).
  { rewrite <- (app_nil_r (c :: m)) at 1. now apply span_digits_app. }
  rewrite Hsp. reflexivity.
Qed.

(** X11: for a row that passed the filter and whose date reads
    [Y-M] or [Y-M-...], with no [-] in [Y] and [M] a string of
    digits, the sales point carries the number that [M] denotes as its
    month (for values below [2^53], which are exact). *)
Theorem normalize_entry_month_of_date (r : RawRecord) (y m tail : list ascii)
    (d t : string) :
  keep_row r = true ->
  created r = Some (string_of_list_ascii (y ++ "-"%char :: m ++ tail)) ->
  short_desc r = Some d ->
  total_sold r = Some t ->
  "-"%char ∉ y ->
  digit_string m ->
  (tail = [] \/ exists rest, tail = "-"%char :: rest) ->
  JS.digits_value m < 2 ^ 53 ->
  normalize_entry r =
    Some {| month := JS.Fin (JS.digits_value m); product := d;
            quantity := JS.parseFloat t |}.
Proof.
  intros Hk Hc Hd Ht Hy Hm Htail Hsafe.
  apply keep_row_true in Hk as (c' & d' & t' & Hc1 & Hd1 & Ht1 & Hc' & Hd' & Ht' & _).
  assert (c' = string_of_list_ascii (y ++ "-"%char :: m ++ tail)) by congruence.
  assert (d' = d) by congruence. assert (t' = t) by congruence. subst.
  rewrite (normalize_entry_kept r _ d t Hc Hd Ht Hc' Hd' Ht').
  unfold JS.split. rewrite list_ascii_of_string_of_list_ascii.
  rewrite (split_chars_prefix _ _ _ Hy).
  assert (Hparts : exists ps, JS.split_chars "-" (m ++ tail) = m :: ps).
  { destruct Htail as [-> | [rest ->]].
    - rewrite app_nil_r, split_chars_no_sep by (apply digits_no_minus, Hm). eauto.
    - rewrite split_chars_prefix by (apply digits_no_minus, Hm). eauto. }
  destruct Hparts as [ps ->]. cbn [map length nth Nat.ltb Nat.leb].
  rewrite (parseInt_digits m Hm), round_to_double_exact; [reflexivity|].
  pose proof (digits_value_nonneg m (proj2 Hm)). lia.
Qed.

Lemma normalize_entry_month_of_date_witness :
  normalize_entry (row "2023-01-05" "Widget" "10") =
    Some {| month := JS.Fin (JS.digits_value (list_ascii_of_string "01"));
            product := "Widget"; quantity := JS.parseFloat "10" |}.
Proof.
  apply (normalize_entry_month_of_date (row "2023-01-05" "Widget" "10")
           (list_ascii_of_string "2023") (list_ascii_of_string "01")
           (list_ascii_of_string "-05") "Widget" "10").
  - reflexivity.
  - reflexivity.
  - reflexivity.
  - reflexivity.
  - apply (bool_decide_unpack _). vm_compute. exact I.
  - split; [discriminate | reflexivity].
  - right. eexists. reflexivity.
  - reflexivity.
Defined.

(** ** Charts *)

Lemma find_no_match {A : Type} (f : A -> bool) (l : list A) :
  (forall x, In x l -> f x = false) -> List.find f l = None.
Proof.
  induction l as [|a l IH]; intros H; [reflexivity|]. cbn [List.find].
  rewrite (H a) by now left. apply IH. intros x Hx. apply H. now right.
Qed.

Lemma strict_eq_NaN_r x : JS.strict_eq x JS.NaN = false.
Proof. now destruct x. Qed.

Section Charts.

Context {Model F : Type}.
Variable fit : list (JS.num * nat) -> list JS.double -> Model.
Variable predict : Model -> JS.num * nat -> F.

(** X13: an upload leaves the prediction table as it was, so a product
    that had predictions keeps them in its chart: the chart has one
    entry per row of the product in the new file plus one per old
    prediction, and for a product with no row in the new file it
    consists of the old predictions only. *)
Theorem handleFileUpload_keeps_predictions (rows : list RawRecord) (st : State F)
    (p : string) (preds : list (PredictionPoint F)) :
  Obj.get (predictions st) p = Obj.Array preds ->
  Obj.get (predictions (handleFileUpload F rows st)) p = Obj.Array preds /\
  exists chart,
    renderChartData (data (handleFileUpload F rows st))
      (predictions (handleFileUpload F rows st)) p = Some chart /\
    length chart = (length (filter_product (preprocessData rows) p) + length preds)%nat /\
    (filter_product (preprocessData rows) p = [] ->
     chart = map (fun pred =>
                    {| chart_month := pred_month pred; actual := None;
                       chart_predicted := Some (predicted pred) |})
                 preds).
Proof.
  intros Hget. unfold handleFileUpload. cbn [data predictions setData].
  split; [exact Hget|]. rewrite renderChartData_unfold, Hget. cbn [Obj.array_of].
  eexists. split; [reflexivity|]. split.
  - now rewrite length_app, !length_map.
  - intros He. rewrite He. reflexivity.
Qed.

(** X14: when the table gives an array or nothing for the product, the
    chart entry of a sales point whose month is NaN has no predicted
    value, whatever the table holds: NaN is strictly equal to no
    month. *)
Theorem renderChartData_nan_month_unmatched (data : list SalesPoint)
    (predictions : Obj.t (PredictionPoint F)) (product : string)
    (i : nat) (entry : SalesPoint) :
  (forall b, Obj.get predictions product <> Obj.Other b) ->
  filter_product data product !! i = Some entry ->
  month entry = JS.NaN ->
  exists chart,
    renderChartData data predictions product = Some chart /\
    chart !! i =
      Some {| chart_month := JS.NaN; actual := Some (quantity entry);
              chart_predicted := None |}.
Proof.
  intros Hplain Hi Hnan. rewrite renderChartData_unfold.
  assert (Hsome :
    forall X (c : X),
      match Obj.get predictions product with
      | Obj.Other _ => None
      | _ => Some c
      end = Some c).
  { intros X c. destruct (Obj.get predictions product) as [|a|b] eqn:Hget;
      [reflexivity | reflexivity | now destruct (Hplain b)]. }
  rewrite Hsome. eexists. split; [reflexivity|]. rewrite lookup_app_l.
  - change (map ?f ?l !! i) with ((f <$> l) !! i).
    rewrite list_lookup_fmap, Hi. cbn [fmap option_fmap option_map].
    rewrite Hnan, find_no_match; [reflexivity|].
    intros x _. apply strict_eq_NaN_r.
  - rewrite length_map. eapply lookup_lt_Some, Hi.
Qed.

(** X15: after a predict action with a positive horizon, the chart of a
    product of the data set has one entry per sales point of the
    product plus one per month of the horizon.  For a name that is not
    a product (and when no product is named [__proto__]) the chart is
    empty, unless the name is one that every object inherits, such as
    [constructor]: then rendering raises a TypeError. *)
Theorem chart_length_after_predict (st : State F) (p : string) :
  0 < months st ->
  (p ∈ map product (data st) ->
   exists chart,
     renderChartData (data (snd (predictSales fit predict st)))
       (predictions (snd (predictSales fit predict st))) p = Some chart /\
     length chart
       = (length (filter_product (data st) p) + Z.to_nat (months st))%nat) /\
  (p ∉ map product (data st) ->
   "__proto__"%string ∉ map product (data st) ->
   renderChartData (data (snd (predictSales fit predict st)))
     (predictions (snd (predictSales fit predict st))) p
   = if Obj.mem_name p Obj.object_prototype_names then None else Some []).
Proof.
  intros Hpos.
  assert (Hdata : data (snd (predictSales fit predict st)) = data st).
  { destruct (predictSales_positive fit predict st Hpos) as (tbl & _ & ->).
    reflexivity. }
  destruct (predictSales_lookup fit predict st p Hpos) as (Hsome & Hnone & _ & Hproto).
  rewrite renderChartData_unfold, Hdata. split.
  - intros Hp. apply filter_product_nonempty in Hp.
    destruct (Hsome Hp) as (preds & Hrun & Hget). rewrite Hget. cbn [Obj.array_of].
    destruct (last_is_Some _ Hp) as [e He].
    destruct (predictSalesForProduct_months fit predict (months st) _ _ He)
      as (preds' & Hres & Hlen & _).
    unfold result in Hres. assert (preds' = preds) by congruence. subst preds'.
    eexists. split; [reflexivity|].
    now rewrite length_app, !length_map, Hlen.
  - intros Hp Hnp.
    assert (He : filter_product (data st) p = []).
    { destruct (list_eq_nil_dec (filter_product (data st) p)) as [He | Hne];
        [exact He|]. apply filter_product_nonempty in Hne. contradiction. }
    assert (Hep : filter_product (data st) "__proto__" = []).
    { destruct (list_eq_nil_dec (filter_product (data st) "__proto__")) as [H | Hne];
        [exact H|]. apply filter_product_nonempty in Hne. contradiction. }
    rewrite (get_not_own _ _ (Hnone He) (Hproto Hep)), He.
    destruct (Obj.mem_name p Obj.object_prototype_names); reflexivity.
Qed.

(** X16: when the last sales point of a product has an integer month
    and no sales point of the product has a later one (rows in
    chronological order within a year), the chart after a predict
    action is the actual series without predicted values followed by
    the predictions of the following months, each month occurring in
    one part only; it is then the merge the specification describes. *)
Theorem chart_of_ordered_product (st : State F) (p : string)
    (lastEntry : SalesPoint) (z : Z) :
  0 < months st ->
  last (filter_product (data st) p) = Some lastEntry ->
  month lastEntry = JS.Fin z ->
  Z.abs z + months st < 2 ^ 53 ->
  (forall entry y,
     entry ∈ filter_product (data st) p -> month entry = JS.Fin y -> y <= z) ->
  renderChartData (data (snd (predictSales fit predict st)))
    (predictions (snd (predictSales fit predict st))) p
  = Some
      (map (fun entry =>
              {| chart_month := month entry; actual := Some (quantity entry);
                 chart_predicted := None |})
           (filter_product (data st) p)
       ++ map (fun i =>
                 {| chart_month := JS.Fin (z + i); actual := None;
                    chart_predicted :=
                      Some (predict
                              (fit (fst (prepareData (filter_product (data st) p)))
                                   (snd (prepareData (filter_product (data st) p))))
                              (JS.Fin (z + i), length (filter_product (data st) p))) |})
              (seqZ 1 (months st))) /\
  renderChartData (data (snd (predictSales fit predict st)))
    (predictions (snd (predictSales fit predict st))) p
  = Some (chartMerge_spec (data (snd (predictSales fit predict st)))
            (predictions (snd (predictSales fit predict st))) p).
Proof.
  intros Hpos Hlast Hz Hsafe Hord.
  assert (Hdata : data (snd (predictSales fit predict st)) = data st).
  { destruct (predictSales_positive fit predict st Hpos) as (tbl & _ & ->).
    reflexivity. }
  assert (Hne : filter_product (data st) p <> []).
  { intros He. rewrite He in Hlast. discriminate. }
  destruct (predictSales_lookup fit predict st p Hpos) as (Hsome & _).
  destruct (Hsome Hne) as (preds & Hrun & Hget). clear Hsome.
  rewrite (predictSalesForProduct_nonempty fit predict _ _ _ Hlast) in Hrun.
  cbn [snd] in Hrun. apply (inj Some) in Hrun. subst preds. rewrite Hz in Hget.
  set (model := fit (fst (prepareData (filter_product (data st) p)))
                    (snd (prepareData (filter_product (data st) p)))) in *.
  set (n := length (filter_product (data st) p)) in *.
  assert (Hpreds :
    map (fun i => {| pred_month := JS.add (JS.Fin z) (JS.Fin i);
                     predicted := predict model (JS.add (JS.Fin z) (JS.Fin i), n) |})
        (seqZ 1 (months st))
    = map (fun i => {| pred_month := JS.Fin (z + i);
                       predicted := predict model (JS.Fin (z + i), n) |})
          (seqZ 1 (months st))).
  { apply map_ext_in. intros i Hi. apply list_elem_of_In, elem_of_seqZ in Hi.
    rewrite add_exact by lia. reflexivity. }
  rewrite Hpreds in Hget. clear Hpreds.
  assert (Hfree : forall entry pred,
            In entry (filter_product (data st) p) ->
            In pred (map (fun i => {| pred_month := JS.Fin (z + i);
                                      predicted := predict model (JS.Fin (z + i), n) |})
                         (seqZ 1 (months st))) ->
            JS.strict_eq (pred_month pred) (month entry) = false).
  { intros entry pred Hentry Hpred.
    apply in_map_iff in Hpred as (i & <- & Hi).
    apply list_elem_of_In, elem_of_seqZ in Hi. cbn [pred_month].
    destruct (month entry) as [| |y] eqn:Hm; try reflexivity.
    cbn [JS.strict_eq]. apply Z.eqb_neq.
    apply list_elem_of_In in Hentry. specialize (Hord entry y Hentry Hm). lia. }
  assert (Hchart :
    renderChartData (data (snd (predictSales fit predict st)))
      (predictions (snd (predictSales fit predict st))) p
    = Some
        (map (fun entry =>
                {| chart_month := month entry; actual := Some (quantity entry);
                   chart_predicted := None |})
             (filter_product (data st) p)
         ++ map (fun i =>
                   {| chart_month := JS.Fin (z + i); actual := None;
                      chart_predicted := Some (predict model (JS.Fin (z + i), n)) |})
                (seqZ 1 (months st)))).
  { rewrite renderChartData_unfold, Hdata, Hget. cbn [Obj.array_of]. do 2 f_equal.
    - apply map_ext_in. intros entry Hentry.
      rewrite find_no_match; [reflexivity|].
      intros pred Hpred. now apply Hfree.
    - now rewrite map_map. }
  split; [exact Hchart|]. rewrite Hchart.
  unfold chartMerge_spec. rewrite Hdata, Hget. cbn [Obj.array_of]. do 2 f_equal.
  - apply map_ext_in. intros entry Hentry.
    rewrite find_no_match; [reflexivity|].
    intros pred Hpred. now apply Hfree.
  - rewrite filter_all; [now rewrite map_map|].
    intros pred Hpred. apply negb_true_iff.
    destruct (existsb _ _) eqn:Hex; [|reflexivity].
    apply existsb_exists in Hex as (entry & Hentry & Heq).
    rewrite (Hfree entry pred Hentry Hpred) in Heq. discriminate.
Qed.

End Charts.

Lemma handleFileUpload_keeps_predictions_witness :
  Obj.get
    (predictions
       (handleFileUpload _ [row "2023-03-01" "Gadget" "7"]
          (snd (predictSales echo_fit echo_predict sample_session))))
    "Widget"
  = Obj.Array [ {| pred_month := JS.Fin 3; predicted := (JS.Fin 3, 2%nat) |};
                {| pred_month := JS.Fin 4; predicted := (JS.Fin 4, 2%nat) |} ] /\
  exists chart,
    renderChartData
      (data (handleFileUpload _ [row "2023-03-01" "Gadget" "7"]
               (snd (predictSales echo_fit echo_predict sample_session))))
      (predictions
         (handleFileUpload _ [row "2023-03-01" "Gadget" "7"]
            (snd (predictSales echo_fit echo_predict sample_session))))
      "Widget" = Some chart /\
    length chart
      = (length (filter_product (preprocessData [row "2023-03-01" "Gadget" "7"]) "Widget")
         + length [ {| pred_month := JS.Fin 3; predicted := (JS.Fin 3, 2%nat) |};
                    {| pred_month := JS.Fin 4; predicted := (JS.Fin 4, 2%nat) |} ])%nat /\
    (filter_product (preprocessData [row "2023-03-01" "Gadget" "7"]) "Widget" = [] ->
     chart = map (fun pred =>
                    {| chart_month := pred_month pred; actual := None;
                       chart_predicted := Some (predicted pred) |})
                 [ {| pred_month := JS.Fin 3; predicted := (JS.Fin 3, 2%nat) |};
                   {| pred_month := JS.Fin 4; predicted := (JS.Fin 4, 2%nat) |} ]).
Proof.
  apply (handleFileUpload_keeps_predictions [row "2023-03-01" "Gadget" "7"]
           (snd (predictSales echo_fit echo_predict sample_session)) "Widget").
  vm_compute. reflexivity.
Defined.

Lemma renderChartData_nan_month_unmatched_witness :
  exists chart,
    renderChartData (preprocessData [nan_row])
      (predictions (snd (predictSales echo_fit echo_predict
                           (handleFileUpload _ [nan_row] (initial_state _)))))
      "Widget" = Some chart /\
    chart !! 0%nat
    = Some {| chart_month := JS.NaN;
              actual := Some (quantity {| month := JS.NaN; product := "Widget";
                                          quantity := S754_nan |});
              chart_predicted := None |}.
Proof.
  apply (renderChartData_nan_month_unmatched (preprocessData [nan_row])
           (predictions (snd (predictSales echo_fit echo_predict
                                (handleFileUpload _ [nan_row] (initial_state _)))))
           "Widget" 0%nat
           {| month := JS.NaN; product := "Widget"; quantity := S754_nan |}).
  - intros b. vm_compute. discriminate.
  - reflexivity.
  - reflexivity.
Defined.

Lemma chart_length_after_predict_witness :
  ("Widget"%string ∈ map product (data sample_session) ->
   exists chart,
     renderChartData (data (snd (predictSales echo_fit echo_predict sample_session)))
       (predictions (snd (predictSales echo_fit echo_predict sample_session)))
       "Widget" = Some chart /\
     length chart
       = (length (filter_product (data sample_session) "Widget")
          + Z.to_nat (months sample_session))%nat) /\
  ("Widget"%string ∉ map product (data sample_session) ->
   "__proto__"%string ∉ map product (data sample_session) ->
   renderChartData (data (snd (predictSales echo_fit echo_predict sample_session)))
     (predictions (snd (predictSales echo_fit echo_predict sample_session)))
     "Widget"
   = if Obj.mem_name "Widget" Obj.object_prototype_names then None else Some []).
Proof.
  apply (chart_length_after_predict echo_fit echo_predict sample_session "Widget").
  reflexivity.
Defined.

Lemma chart_of_ordered_product_witness :
  renderChartData (data (snd (predictSales echo_fit echo_predict sample_session)))
    (predictions (snd (predictSales echo_fit echo_predict sample_session))) "Widget"
  = Some
      (map (fun entry =>
              {| chart_month := month entry; actual := Some (quantity entry);
                 chart_predicted := None |})
           (filter_product (data sample_session) "Widget")
       ++ map (fun i =>
                 {| chart_month := JS.Fin (2 + i); actual := None;
                    chart_predicted :=
                      Some (echo_predict
                              (echo_fit
                                 (fst (prepareData (filter_product (data sample_session) "Widget")))
                                 (snd (prepareData (filter_product (data sample_session) "Widget"))))
                              (JS.Fin (2 + i),
                               length (filter_product (data sample_session) "Widget"))) |})
              (seqZ 1 (months sample_session))) /\
  renderChartData (data (snd (predictSales echo_fit echo_predict sample_session)))
    (predictions (snd (predictSales echo_fit echo_predict sample_session))) "Widget"
  = Some (chartMerge_spec (data (snd (predictSales echo_fit echo_predict sample_session)))
            (predictions (snd (predictSales echo_fit echo_predict sample_session)))
            "Widget").
Proof.
  apply (chart_of_ordered_product echo_fit echo_predict sample_session "Widget"
           {| month := JS.Fin 2; product := "Widget"; quantity := JS.number 15 |} 2).
  - reflexivity.
  - reflexivity.
  - reflexivity.
  - reflexivity.
  - intros entry y Hin Hm. apply list_elem_of_In in Hin. vm_compute in Hin.
    destruct Hin as [<- | [<- | []]]; vm_compute in Hm; injection Hm as <-; lia.
Defined.

(** A product named [__proto__] gets no key: its predictions become
    the prototype of the table, and are read back through it. *)
Example proto_product_has_no_key :
  Obj.keys
    (predictions
       (snd (predictSales echo_fit echo_predict
               (handleFileUpload _
                  [row "2023-01-05" "__proto__" "10"; row "2023-02-03" "Widget" "15"]
                  (initial_state (JS.num * nat))))))
  = {["Widget"%string]} /\
  Obj.truthy
    (Obj.get
       (predictions
          (snd (predictSales echo_fit echo_predict
                  (handleFileUpload _
                     [row "2023-01-05" "__proto__" "10"; row "2023-02-03" "Widget" "15"]
                     (initial_state (JS.num * nat))))))
       "__proto__") = true.
Proof. split; vm_compute; reflexivity. Qed.

(** ** What is drawn *)

Section View.

Context {Model F : Type}.
Variable fit : list (JS.num * nat) -> list JS.double -> Model.
Variable predict : Model -> JS.num * nat -> F.

(** X17: after a predict action with a positive horizon, choosing a
    name in the selector draws the charts of all products exactly when
    the empty choice is made and the data set has a product other than
    [__proto__]; it draws the single chart whenever the name is a
    non-empty product name of the data set; and, when no product is
    named [__proto__], it draws the single chart exactly when the name
    is a product of the data set or a name that every object inherits.
    The two views never show together. *)
Theorem view_after_predict (st : State F) (value : string) :
  0 < months st ->
  (showsAllCharts (handleProductChange value (snd (predictSales fit predict st)))
     = true
   <-> value = ""%string /\
       exists q, q ∈ map product (data st) /\ q <> "__proto__"%string) /\
  (value <> ""%string -> value ∈ map product (data st) ->
   showsSelectedChart (handleProductChange value (snd (predictSales fit predict st)))
     = true) /\
  ("__proto__"%string ∉ map product (data st) ->
   (showsSelectedChart (handleProductChange value (snd (predictSales fit predict st)))
      = true
    <-> value <> ""%string /\
        (value ∈ map product (data st) \/
         Obj.mem_name value Obj.object_prototype_names = true))) /\
  (showsAllCharts (handleProductChange value (snd (predictSales fit predict st)))
     && showsSelectedChart (handleProductChange value (snd (predictSales fit predict st)))
   = false).
Proof.
  intros Hpos. unfold showsSelectedChart, showsAllCharts, handleProductChange.
  cbn [selectedProduct predictions JS.truthy].
  split; [|split; [|split]].
  - rewrite andb_true_iff, negb_true_iff, negb_false_iff, String.eqb_eq, Nat.ltb_lt.
    assert (Hsize :
      (0 < size (Obj.keys (predictions (snd (predictSales fit predict st)))))%nat
      <-> exists q, q ∈ map product (data st) /\ q <> "__proto__"%string).
    { split.
      - intros Hs.
        assert (Hz : size (Obj.keys (predictions (snd (predictSales fit predict st))))
                     <> 0%nat) by lia.
        apply size_non_empty_iff, set_choose in Hz as [q Hq].
        unfold Obj.keys in Hq. apply elem_of_dom in Hq as [a Ha].
        destruct (predictSales_lookup fit predict st q Hpos) as (_ & Hnone & Hnp & _).
        exists q. split.
        + apply filter_product_nonempty. intros He. rewrite (Hnone He) in Ha. discriminate.
        + intros ->. rewrite Hnp in Ha. discriminate.
      - intros (q & Hq & Hne). apply filter_product_nonempty in Hq.
        destruct (predictSales_lookup fit predict st q Hpos) as (Hsome & _).
        destruct (Hsome Hq) as (preds & _ & Hget).
        apply get_array_own in Hget; [|exact Hne].
        assert (Hin : q ∈ Obj.keys (predictions (snd (predictSales fit predict st)))).
        { unfold Obj.keys. apply elem_of_dom. eauto. }
        assert (Hz : size (Obj.keys (predictions (snd (predictSales fit predict st))))
                     <> 0%nat).
        { apply size_non_empty_iff. intros Hemp. rewrite Hemp in Hin.
          now apply not_elem_of_empty in Hin. }
        lia. }
    rewrite Hsize. reflexivity.
  - intros Hv Hin. apply filter_product_nonempty in Hin.
    destruct (predictSales_lookup fit predict st value Hpos) as (Hsome & _).
    destruct (Hsome Hin) as (preds & _ & Hget). rewrite Hget. cbn [Obj.truthy].
    rewrite andb_true_r. now apply negb_true_iff, String.eqb_neq.
  - intros Hnp.
    rewrite andb_true_iff, negb_true_iff, String.eqb_neq.
    destruct (predictSales_lookup fit predict st value Hpos) as (Hsome & Hnone & _ & Hproto).
    assert (Hep : filter_product (data st) "__proto__" = []).
    { destruct (list_eq_nil_dec (filter_product (data st) "__proto__")) as [H | Hne];
        [exact H|]. apply filter_product_nonempty in Hne. contradiction. }
    destruct (list_eq_nil_dec (filter_product (data st) value)) as [He | Hne].
    + rewrite (get_not_own _ _ (Hnone He) (Hproto Hep)).
      assert (Hv : value ∉ map product (data st)).
      { intros Hv. apply filter_product_nonempty in Hv. contradiction. }
      destruct (Obj.mem_name value Obj.object_prototype_names); cbn [Obj.truthy].
      * tauto.
      * split; [intros [_ H]; discriminate|]. intros [_ [H | H]]; [contradiction|discriminate].
    + destruct (Hsome Hne) as (preds & _ & Hget). rewrite Hget. cbn [Obj.truthy].
      apply filter_product_nonempty in Hne. tauto.
  - destruct (String.eqb value ""); cbn [negb andb];
      rewrite ?andb_false_r; reflexivity.
Qed.

(** X21: when a name that every object inherits (such as
    [constructor]) is selected and the table has neither an entry of
    that name nor a replaced prototype, the chart of the selected
    product is asked for and rendering it raises a TypeError. *)
Theorem inherited_name_breaks_chart (st : State F) :
  Obj.own (predictions st) !! selectedProduct st = None ->
  Obj.proto (predictions st) = None ->
  Obj.mem_name (selectedProduct st) Obj.object_prototype_names = true ->
  showsSelectedChart st = true /\
  renderChartData (data st) (predictions st) (selectedProduct st) = None.
Proof.
  intros Hown Hproto Hname. unfold showsSelectedChart.
  rewrite renderChartData_unfold, (get_not_own _ _ Hown Hproto), Hname.
  cbn [Obj.truthy JS.truthy]. split; [|reflexivity].
  rewrite andb_true_r. apply negb_true_iff, String.eqb_neq.
  intros Hsel. rewrite Hsel in Hname. discriminate.
Qed.

End View.

Lemma view_after_predict_witness :
  (showsAllCharts
     (handleProductChange "Widget" (snd (predictSales echo_fit echo_predict sample_session)))
     = true
   <-> "Widget"%string = ""%string /\
       exists q, q ∈ map product (data sample_session) /\ q <> "__proto__"%string) /\
  ("Widget"%string <> ""%string -> "Widget"%string ∈ map product (data sample_session) ->
   showsSelectedChart
     (handleProductChange "Widget" (snd (predictSales echo_fit echo_predict sample_session)))
     = true) /\
  ("__proto__"%string ∉ map product (data sample_session) ->
   (showsSelectedChart
      (handleProductChange "Widget" (snd (predictSales echo_fit echo_predict sample_session)))
      = true
    <-> "Widget"%string <> ""%string /\
        ("Widget"%string ∈ map product (data sample_session) \/
         Obj.mem_name "Widget" Obj.object_prototype_names = true))) /\
  (showsAllCharts
     (handleProductChange "Widget" (snd (predictSales echo_fit echo_predict sample_session)))
   && showsSelectedChart
        (handleProductChange "Widget" (snd (predictSales echo_fit echo_predict sample_session)))
   = false).
Proof.
  apply (view_after_predict echo_fit echo_predict sample_session "Widget").
  reflexivity.
Defined.

Lemma inherited_name_breaks_chart_witness :
  showsSelectedChart
    (handleProductChange "constructor"
       (handleFileUpload _ [row "2023-01-05" "constructor" "10"]
          (initial_state (JS.num * nat)))) = true /\
  renderChartData
    (data (handleProductChange "constructor"
             (handleFileUpload _ [row "2023-01-05" "constructor" "10"]
                (initial_state (JS.num * nat)))))
    (predictions (handleProductChange "constructor"
                    (handleFileUpload _ [row "2023-01-05" "constructor" "10"]
                       (initial_state (JS.num * nat)))))
    (selectedProduct (handleProductChange "constructor"
                        (handleFileUpload _ [row "2023-01-05" "constructor" "10"]
                           (initial_state (JS.num * nat))))) = None.
Proof.
  apply (inherited_name_breaks_chart
           (handleProductChange "constructor"
              (handleFileUpload _ [row "2023-01-05" "constructor" "10"]
                 (initial_state (JS.num * nat))))); reflexivity.
Defined.

Section Selector.

Context {Model F : Type}.
Variable fit : list (JS.num * nat) -> list JS.double -> Model.
Variable predict : Model -> JS.num * nat -> F.

(** X18: the selector lists each product of the data set once, and
    after a predict action with a positive horizon the names it lists
    are exactly the names under which the table gives an array of
    predictions. *)
Theorem options_have_predictions (st : State F) :
  0 < months st ->
  NoDup (productOptions st) /\
  productOptions (snd (predictSales fit predict st)) = productOptions st /\
  (forall q,
     q ∈ productOptions st <->
     exists preds,
       Obj.get (predictions (snd (predictSales fit predict st))) q = Obj.Array preds).
Proof.
  intros Hpos. unfold productOptions. split; [apply unique_from_NoDup|]. split.
  - destruct (predictSales_positive fit predict st Hpos) as (tbl & _ & ->).
    reflexivity.
  - intros q. unfold unique. rewrite unique_from_spec.
    destruct (predictSales_lookup fit predict st q Hpos) as (Hsome & Hnone & Hnp & Hproto).
    split.
    + intros [Hq _]. apply filter_product_nonempty in Hq.
      destruct (Hsome Hq) as (preds & _ & Hget). eauto.
    + intros [preds Hget]. split; [|intros H; inversion H].
      apply filter_product_nonempty. intros He.
      destruct (decide (q = "__proto__"%string)) as [-> | Hq].
      * unfold Obj.get in Hget. rewrite Hnp, (Hproto He) in Hget. discriminate.
      * apply get_array_own in Hget; [|exact Hq]. rewrite (Hnone He) in Hget. discriminate.
Qed.

End Selector.

Lemma options_have_predictions_witness :
  NoDup (productOptions sample_session) /\
  productOptions (snd (predictSales echo_fit echo_predict sample_session))
    = productOptions sample_session /\
  (forall q,
     q ∈ productOptions sample_session <->
     exists preds,
       Obj.get (predictions (snd (predictSales echo_fit echo_predict sample_session))) q
         = Obj.Array preds).
Proof.
  apply (options_have_predictions echo_fit echo_predict sample_session).
  reflexivity.
Defined.

(** ** The data set as a whole *)

Lemma filter_app_stdlib {A : Type} (f : A -> bool) (l1 l2 : list A) :
  List.filter f (l1 ++ l2) = List.filter f l1 ++ List.filter f l2.
Proof. apply List.filter_app. Qed.

(** X19: normalization works row by row and keeps the order of the
    file: the data set of a file made of two blocks of rows, the first
    of at most 100 rows, is the data set of the first block followed by
    the data set of what the limit of 100 rows leaves of the second. *)
Theorem preprocessData_app (rows1 rows2 : list RawRecord) :
  (length rows1 <= 100)%nat ->
  preprocessData (rows1 ++ rows2) =
  preprocessData rows1 ++ preprocessData (take (100 - length rows1) rows2).
Proof.
  intros Hlen. rewrite !preprocessData_unfold.
  rewrite take_app, (take_ge rows1) by lia.
  rewrite take_take, Nat.min_r by lia.
  now rewrite filter_app_stdlib, omap_app.
Qed.

Lemma preprocessData_app_witness :
  preprocessData (sample_rows ++ [nan_row]) =
  preprocessData sample_rows ++ preprocessData (take (100 - length sample_rows) [nan_row]).
Proof.
  apply (preprocessData_app sample_rows [nan_row]). vm_compute. lia.
Defined.

Lemma filter_product_cons (e : SalesPoint) (d : list SalesPoint) (p : string) :
  length (filter_product (e :: d) p)
  = ((if String.eqb (product e) p then 1 else 0) + length (filter_product d p))%nat.
Proof.
  unfold filter_product. cbn [List.filter].
  destruct (String.eqb (product e) p); reflexivity.
Qed.

Lemma count_eqb_NoDup (x : string) (ps : list string) :
  NoDup ps -> x ∈ ps ->
  sum_list (map (fun p => if String.eqb x p then 1 else 0)%nat ps) = 1%nat.
Proof.
  induction ps as [|p ps IH]; intros Hnd Hx; [inversion Hx|].
  apply NoDup_cons in Hnd as [Hp Hnd]. cbn [map sum_list].
  destruct (String.eqb x p) eqn:Heq.
  - apply String.eqb_eq in Heq. subst p. f_equal.
    clear IH Hx Hnd. induction ps as [|q ps IH]; [reflexivity|].
    apply not_elem_of_cons in Hp as [Hne Hp]. cbn [map sum_list].
    apply String.eqb_neq in Hne. rewrite Hne. now apply IH.
  - apply String.eqb_neq in Heq.
    apply elem_of_cons in Hx as [-> | Hx]; [congruence|]. now apply IH.
Qed.

Lemma sum_list_map_add {A : Type} (f g : A -> nat) (l : list A) :
  sum_list (map (fun a => f a + g a)%nat l)
  = (sum_list (map f l) + sum_list (map g l))%nat.
Proof.
  induction l as [|a l IH]; [reflexivity|]. simpl. rewrite IH. lia.
Qed.

Lemma filter_product_partition (data : list SalesPoint) (ps : list string) :
  NoDup ps -> (forall e, e ∈ data -> product e ∈ ps) ->
  sum_list (map (fun p => length (filter_product data p)) ps) = length data.
Proof.
  intros Hnd. induction data as [|e d IH]; intros Hall.
  - induction ps as [|p ps IHp]; [reflexivity|].
    apply NoDup_cons in Hnd as [_ Hnd]. cbn [map sum_list]. now rewrite IHp.
  - rewrite (map_ext _ (fun p => ((if String.eqb (product e) p then 1 else 0)
                                  + length (filter_product d p))%nat))
      by (intros p; apply filter_product_cons).
    rewrite sum_list_map_add, count_eqb_NoDup, IH; [reflexivity| | exact Hnd |].
    + intros e' He'. apply Hall. now right.
    + apply Hall. left.
Qed.

(** X20: the slices that the predict action trains on partition the
    data set: each slice holds points of the data set with that very
    product name, and the sizes of the slices of the distinct products
    add up to the size of the data set, so every sales point is used
    for exactly one model. *)
Theorem product_slices_partition (data : list SalesPoint) :
  (forall p e, e ∈ filter_product data p <-> e ∈ data /\ product e = p) /\
  sum_list (map (fun p => length (filter_product data p))
              (unique (map product data)))
  = length data.
Proof.
  split.
  - intros p e. unfold filter_product.
    rewrite !list_elem_of_In, filter_In, String.eqb_eq. reflexivity.
  - apply filter_product_partition; [apply unique_from_NoDup|].
    intros e He. unfold unique. apply unique_from_spec. split.
    + apply list_elem_of_In, in_map, list_elem_of_In, He.
    + intros H. inversion H.
Qed.
